(** * Push-notification decode / dispatch / apply pipeline

    A shallow embedding of

      - [parsePushNotificationPayload.ts]       (the Payload Decoder),
      - [index.native.ts]                       (bind, dispatch, register),
      - [subscribeToPushNotifications.ts]       (applyOnyxData, navigateToReport,
                                                 safelyFinishBackgroundProcessing),
      - [shouldShowPushNotification.ts]

    The TypeScript code is effectful: it logs, calls the push SDK, the
    navigation layer and the native bridge, and chains promises.  It is
    modelled in a state-and-exception monad [M] over a [World] that holds a
    promise heap, the microtask queue, the queue of pending completions of
    external operations, and the trace of every observable effect.  Callbacks
    handed to [.then], [.catch], [Onyx.connect] and [Modal.close] are
    represented by one constructor of [Callback] each and run by
    [apply_callback].

    What the surrounding application and libraries answer (the SDK, the
    navigation collaborator, [atob], [pako.inflate], [JSON.parse], constants of
    [CONST], [ROUTES] and [CONFIG]) is collected in the record [Env]; every
    definition and theorem is parametric in it.

    Conventions:
      - [Log.info], [Log.warn], [Log.hmmm] and [Log.alert] are recorded in the
        trace with their level and the static text of their message; the
        parameter object of a log call is dropped, except where building it
        calls the navigation collaborator.  [console.log] lines are not
        recorded.
      - JSON numbers are integers, and [Number_toString] is their decimal
        notation.
      - [notificationEventActionMap] is an object used as a map; it is a finite
        map of its own properties here.  A read [actionMap[key]] that finds no
        own property goes on to the members every object inherits from
        [Object.prototype]; see [Object_prototype].
      - The decoded data is whatever JSON came in: the code casts it to
        [PushNotificationData] without a check, so handlers take a
        [JsonValue] and read its fields with [get_prop].

    The file has the model first (the code, then the words used to state
    properties), and the properties after it. *)

From stdpp Require Import base strings list gmap.
From Stdlib Require Import ZArith Ascii DecimalString.

Set Warnings "-register-all".

Local Open Scope string_scope.
Local Open Scope list_scope.
Local Open Scope Z_scope.

(** ** JSON values *)

Inductive JsonValue : Type :=
| JNull
| JBool (b : bool)
| JNum (n : Z)
| JStr (s : string)
| JArr (items : list JsonValue)
| JObj (fields : list (string * JsonValue)).

(** JavaScript truthiness, as tested by [!x] and [if (x)]. *)
Definition truthy (j : JsonValue) : bool :=
  match j with
  | JNull => false
  | JBool b => b
  | JNum n => negb (n =? 0)
  | JStr s => negb (String.eqb s "")
  | JArr _ | JObj _ => true
  end.

(** [x] of type [T | undefined]: [None] is [undefined]. *)
Definition truthy_opt (o : option JsonValue) : bool :=
  match o with
  | Some j => truthy j
  | None => false
  end.

Fixpoint assoc (k : string) (fields : list (string * JsonValue)) : option JsonValue :=
  match fields with
  | [] => None
  | (k', v) :: rest => if String.eqb k k' then Some v else assoc k rest
  end.

(** Property read [data.key] on a value that passed a truthiness guard: an
    own property of an object, [undefined] on every other truthy value (the
    keys read by this code are no members of strings, numbers or arrays). *)
Definition get_prop (data : JsonValue) (key : string) : option JsonValue :=
  match data with
  | JObj fields => assoc key fields
  | _ => None
  end.

Definition Number_toString (n : Z) : string :=
  NilZero.string_of_int (Z.to_int n).

(** [String(x)], template interpolation and the conversion of a property key. *)
Fixpoint js_toString (j : JsonValue) : string :=
  match j with
  | JNull => "null"
  | JBool true => "true"
  | JBool false => "false"
  | JNum n => Number_toString n
  | JStr s => s
  | JArr items =>
      (fix join (l : list JsonValue) : string :=
         match l with
         | [] => ""
         | x :: rest =>
             let sx := match x with JNull => "" | _ => js_toString x end in
             match rest with
             | [] => sx
             | _ :: _ => sx +:+ "," +:+ join rest
             end
         end) items
  | JObj _ => "[object Object]"
  end.

Definition js_String (o : option JsonValue) : string :=
  match o with
  | Some j => js_toString j
  | None => "undefined"
  end.

(** ** Values, promises and the world *)

Inductive Value : Type :=
| VUndefined
| VJson (j : JsonValue)
| VPromise (p : nat)
| VError (msg : string).

Definition of_opt (o : option JsonValue) : Value :=
  match o with
  | Some j => VJson j
  | None => VUndefined
  end.

Inductive Settlement : Type :=
| Fulfilled (v : Value)
| Rejected (e : Value).

Inductive PState : Type :=
| Pending
| Settled (s : Settlement).

Definition settled_value (s : Settlement) : Value :=
  match s with
  | Fulfilled v => v
  | Rejected e => e
  end.

(** How an operation of a collaborator that returns a promise ends.  Such a
    promise is fulfilled with plain data (or undefined), never with a promise. *)
Inductive Outcome : Type :=
| Resolves (v : option JsonValue)
| Rejects (e : Value)
| Hangs.

Inductive CallResult : Type :=
| ThrowsSync (e : Value)
| ReturnsPromise (o : Outcome).

Inductive CallbackMode : Type :=
| CallsBackNow
| CallsBackLater
| NeverCallsBack.

Inductive LogLevel : Type := Info | Warn | Hmmm | Alert.

(** The two kinds of SDK event this code listens to. *)
Inductive EventType : Type := PushReceived | NotificationResponse.

Inductive NotificationID : Type :=
| IDStr (s : string)
| IDNum (n : Z).

Definition NotificationID_toString (id : NotificationID) : string :=
  match id with
  | IDStr s => s
  | IDNum n => Number_toString n
  end.

(** [OnyxUpdatesFromServer], as far as [applyOnyxData] fills it in. *)
Record OnyxUpdateEvent : Type := mkOnyxUpdateEvent {
  eventType : string;
  data : JsonValue;
}.

Inductive OnyxUpdateType : Type := AIRSHIP.

Record OnyxUpdatesFromServer : Type := mkUpdates {
  utype : OnyxUpdateType;
  lastUpdateID : JsonValue;
  previousUpdateID : option JsonValue;
  shouldFetchPendingUpdates : option bool;
  updates : list OnyxUpdateEvent;
}.

Inductive OnyxKey : Type :=
| ONYX_UPDATES_LAST_UPDATE_ID_APPLIED_TO_CLIENT.

(** Calls that leave this code. *)
Inductive ExtCall : Type :=
| Bridge_finishBackgroundProcessing
| Onyx_connect (key : OnyxKey)
| Call_applyOnyxUpdatesReliably (u : OnyxUpdatesFromServer)
    (shouldRunSync : bool) (clientLastUpdateID : Value)
| Airship_contact_getNamedUserId
| Airship_push_enableUserNotifications
| Airship_contact_identify (namedUser : string)
| Airship_push_getNotificationStatus
| Navigation_waitForProtectedRoutes
| Modal_close
| Navigation_getActiveRoute
| Navigation_isActiveRoute (route : string)
| Navigation_goBack
| Navigation_navigate (route : string)
| App_updateLastVisitedPath (path : string).

Inductive Event : Type :=
| EvLog (lvl : LogLevel) (msg : string)
| EvInvoke (handler : string) (arg : JsonValue)
| EvCall (c : ExtCall)
| EvUncaught (e : Value).

(** One constructor per function literal of the source that is run later. *)
Inductive Callback : Type :=
(* applyOnyxData *)
| CbResolveLastUpdateID (p : nat)
| CbApplyReliably (reportID : option JsonValue) (u : OnyxUpdatesFromServer)
| CbFinishSuccess (reportID lastUpdateID : option JsonValue)
| CbFinishError (reportID lastUpdateID : option JsonValue)
(* navigateToReport *)
| CbRoutesReady (reportID : option JsonValue)
| CbModalClosed (reportID : option JsonValue)
(* register *)
| CbGotNamedUser (id : NotificationID)
| CbRegisterFailed (id : NotificationID)
| CbPermissionResult (id : NotificationID)
| CbStatusOk (id : NotificationID)
| CbStatusFailed (id : NotificationID).

Inductive Reaction : Type :=
| RCallback (onFulfilled onRejected : option Callback) (derived : nat)
| RAdopt (target : nat).

Record Cell : Type := mkCell {
  pstate : PState;
  reactions : list Reaction;
}.

Inductive Job : Type :=
| JReact (r : Reaction) (s : Settlement)
| JResolveThenable (target thenable : nat).

Inductive Task : Type :=
| TSettle (p : nat) (s : Settlement)
| TCall (cb : Callback) (arg : Value).

Record World : Type := mkWorld {
  heap : list Cell;            (* promise [p] is cell number [p] *)
  microtasks : list Job;       (* oldest first *)
  macrotasks : list Task;      (* pending completions of external operations *)
  trace : list Event;          (* newest first *)
  isSingleNewDotEntry : option bool;
}.

Definition set_heap (h : list Cell) (w : World) : World :=
  mkWorld h (microtasks w) (macrotasks w) (trace w) (isSingleNewDotEntry w).
Definition set_microtasks (q : list Job) (w : World) : World :=
  mkWorld (heap w) q (macrotasks w) (trace w) (isSingleNewDotEntry w).
Definition set_macrotasks (q : list Task) (w : World) : World :=
  mkWorld (heap w) (microtasks w) q (trace w) (isSingleNewDotEntry w).
Definition set_trace (t : list Event) (w : World) : World :=
  mkWorld (heap w) (microtasks w) (macrotasks w) t (isSingleNewDotEntry w).
Definition set_isSingleNewDotEntry (b : option bool) (w : World) : World :=
  mkWorld (heap w) (microtasks w) (macrotasks w) (trace w) b.

Arguments set_heap _ _ /.
Arguments set_microtasks _ _ /.
Arguments set_macrotasks _ _ /.
Arguments set_trace _ _ /.
Arguments set_isSingleNewDotEntry _ _ /.

(** ** The monad *)

Inductive Res (A : Type) : Type :=
| Ok (a : A)
| Throw (e : Value).
Arguments Ok {A} a.
Arguments Throw {A} e.

Definition M (A : Type) : Type := World -> Res A * World.

Definition ret {A} (a : A) : M A := fun w => (Ok a, w).

Definition bind {A B} (m : M A) (k : A -> M B) : M B :=
  fun w =>
    match m w with
    | (Ok a, w') => k a w'
    | (Throw e, w') => (Throw e, w')
    end.

Definition throw {A} (e : Value) : M A := fun w => (Throw e, w).

Definition try_catch {A} (m : M A) (handler : Value -> M A) : M A :=
  fun w =>
    match m w with
    | (Ok a, w') => (Ok a, w')
    | (Throw e, w') => handler e w'
    end.

Declare Scope m_scope.
Delimit Scope m_scope with m.
Notation "x <- m ;; k" := (bind m (fun x => k))
  (at level 100, m at next level, right associativity) : m_scope.
Notation "m ;; k" := (bind m (fun _ => k))
  (at level 100, right associativity) : m_scope.
Local Open Scope m_scope.

Definition emit (e : Event) : M unit :=
  fun w => (Ok tt, set_trace (e :: trace w) w).

Definition log (lvl : LogLevel) (msg : string) : M unit := emit (EvLog lvl msg).

Definition get_isSingleNewDotEntry : M (option bool) :=
  fun w => (Ok (isSingleNewDotEntry w), w).

(** A library call that either returns or throws. *)
Definition lift_opt {A} (o : option A) (e : Value) : M A :=
  match o with
  | Some a => ret a
  | None => throw e
  end.

(** A pure call that returns or throws. *)
Definition lift_res {A} (r : Res A) : M A := fun w => (r, w).

(** A synchronous call to a collaborator: recorded, then answered from what
    has been observed so far. *)
Definition ext_call {A} (c : ExtCall) (answer : list Event -> Res A) : M A :=
  fun w =>
    let w' := set_trace (EvCall c :: trace w) w in
    match answer (trace w) with
    | Ok a => (Ok a, w')
    | Throw e => (Throw e, w')
    end.

(** ** Promises *)

Definition new_promise (st : PState) : M nat :=
  fun w => (Ok (length (heap w)), set_heap (heap w ++ [mkCell st []]) w).

Definition enqueue (j : Job) : M unit :=
  fun w => (Ok tt, set_microtasks (microtasks w ++ [j]) w).

Definition push_task (t : Task) : M unit :=
  fun w => (Ok tt, set_macrotasks (macrotasks w ++ [t]) w).

(** Settling a pending promise schedules its reactions; a settled promise
    never changes again. *)
Definition settle (p : nat) (s : Settlement) : M unit :=
  fun w =>
    match heap w !! p with
    | Some (mkCell Pending rs) =>
        (Ok tt,
         set_microtasks (microtasks w ++ map (fun r => JReact r s) rs)
           (set_heap (<[p := mkCell (Settled s) []]> (heap w)) w))
    | _ => (Ok tt, w)
    end.

(** The promise's resolve function: a promise given as value is adopted. *)
Definition resolve (p : nat) (v : Value) : M unit :=
  match v with
  | VPromise q =>
      if Nat.eqb q p
      then settle p (Rejected (VError "TypeError: Chaining cycle detected for promise"))
      else enqueue (JResolveThenable p q)
  | _ => settle p (Fulfilled v)
  end.

Definition subscribe (p : nat) (r : Reaction) : M unit :=
  fun w =>
    match heap w !! p with
    | Some (mkCell Pending rs) =>
        (Ok tt, set_heap (<[p := mkCell Pending (rs ++ [r])]> (heap w)) w)
    | Some (mkCell (Settled s) _) => enqueue (JReact r s) w
    | None => (Ok tt, w)
    end.

(** [p.then(onFulfilled, onRejected)] *)
Definition then_ (p : nat) (onFulfilled onRejected : option Callback) : M nat :=
  d <- new_promise Pending;;
  subscribe p (RCallback onFulfilled onRejected d);;
  ret d.

(** [p.catch(onRejected)] *)
Definition catch_ (p : nat) (onRejected : Callback) : M nat :=
  then_ p None (Some onRejected).

(** [Promise.resolve(v)] *)
Definition Promise_resolve (v : Value) : M Value :=
  match v with
  | VPromise q => ret (VPromise q)
  | _ => p <- new_promise (Settled (Fulfilled v));; ret (VPromise p)
  end.

(** A collaborator's asynchronous operation: the call is recorded and a new
    promise comes back, settled later as the [Outcome] says. *)
Definition ext_async (c : ExtCall) (o : Outcome) : M nat :=
  emit (EvCall c);;
  p <- new_promise Pending;;
  match o with
  | Resolves v => push_task (TSettle p (Fulfilled (of_opt v)))
  | Rejects e => push_task (TSettle p (Rejected e))
  | Hangs => ret tt
  end;;
  ret p.

Definition promise_state (w : World) (p : nat) : option PState :=
  pstate <$> heap w !! p.

(** ** The environment *)

Record BridgeModule : Type := mkBridge {
  (* [typeof PushNotificationBridge.finishBackgroundProcessing === 'function'] *)
  finishBackgroundProcessing_is_function : bool;
}.

(** What a call of [PushNotificationBridge.finishBackgroundProcessing()] does:
    a native method returns undefined or a promise, or the call throws. *)
Inductive FinishResult : Type :=
| FinishReturnsUndefined
| FinishThrows (e : Value)
| FinishReturnsPromise (o : Outcome).

Record Env : Type := mkEnv {
  (* library functions; [None] is a thrown exception *)
  atob : string -> option string;
  pako_inflate : list Z -> option string;
  JSON_parse : string -> option JsonValue;
  (* constants of CONST, ROUTES and CONFIG *)
  DEFAULT_NUMBER_ID : Z;
  ROUTES_REPORT : string;
  ROUTES_TRANSITION_BETWEEN_APPS : string;
  REPORT_WITH_ID_getRoute : string -> option string -> string;
  IS_HYBRID_APP : bool;
  DEV : bool;
  (* NativeModules.PushNotificationBridge, and what calling its method does *)
  PushNotificationBridge : option BridgeModule;
  finishBackgroundProcessing : FinishResult;
  (* the persisted "last update ID applied to this client" *)
  lastUpdateIDAppliedToClient : option Z;
  (* collaborators *)
  applyOnyxUpdatesReliably : OnyxUpdatesFromServer -> Value -> CallResult;
  getNamedUserId : Outcome;
  enableUserNotifications : Outcome;
  getNotificationStatus : Outcome;
  waitForProtectedRoutes : Outcome;
  Modal_close_mode : CallbackMode;
  getActiveRoute : list Event -> Res string;
  isActiveRoute : string -> list Event -> Res bool;
  goBack : list Event -> Res unit;
  navigate : string -> list Event -> Res unit;
  updateLastVisitedPath : string -> list Event -> Res unit;
  getLatestReportActionFromOnyxData : JsonValue -> Res Value;
  shouldShowReportActionNotification : string -> Value -> bool -> Res bool;
}.

(** ** Strings *)

Definition GZIP_MAGIC_NUMBER : string :=
  String (ascii_of_nat 31) (String (ascii_of_nat 139) EmptyString).

Definition startsWith (s pre : string) : bool := String.prefix pre s.

Fixpoint includes (s needle : string) : bool :=
  String.prefix needle s ||
  match s with
  | EmptyString => false
  | String _ rest => includes rest needle
  end.

(** [s.slice(from, to)] for [0 <= from <= to]. *)
Definition slice (s : string) (from to : nat) : string :=
  String.substring from (to - from) s.

(** [Uint8Array.from(s, (x) => x.charCodeAt(0))] *)
Definition char_codes (s : string) : list Z :=
  map (fun c => Z.of_nat (nat_of_ascii c)) (String.list_ascii_of_string s).

Definition truthy_value (v : Value) : bool :=
  match v with
  | VUndefined => false
  | VJson j => truthy j
  | VPromise _ | VError _ => true
  end.

(** [v === s] for a string [s] *)
Definition strict_eq_string (v : Value) (s : string) : bool :=
  match v with
  | VJson (JStr s') => String.eqb s' s
  | _ => false
  end.

(** ** Members inherited from Object.prototype

    [notificationEventActionMap] and its action maps are plain objects, so a
    read [actionMap[key]] of a key that is no own property finds the member
    of that name on [Object.prototype], if there is one.  [Object_prototype
    key] is what calling that member as [action(data)] does; [this] is
    undefined in the call, as the code is module code.  [constructor] is
    [Object] and returns an object argument as it is; [toString] answers for
    the undefined [this]; [isPrototypeOf] answers false for an argument that
    is no object; the others start by converting [this] to an object, which
    throws a TypeError, and so does the call of [__proto__], which is the
    prototype itself and no function. *)

Definition JS_TypeError : Value := VError "TypeError".

Definition Object_prototype (key : string) : option (JsonValue -> Res Value) :=
  if String.eqb key "constructor" then Some (fun data => Ok (VJson data))
  else if String.eqb key "toString" then
    Some (fun _ => Ok (VJson (JStr "[object Undefined]")))
  else if String.eqb key "isPrototypeOf" then
    Some (fun data => match data with
                      | JObj _ | JArr _ => Throw JS_TypeError
                      | _ => Ok (VJson (JBool false))
                      end)
  else if bool_decide (key ∈ ["toLocaleString"; "valueOf"; "hasOwnProperty";
                              "propertyIsEnumerable"; "__defineGetter__";
                              "__defineSetter__"; "__lookupGetter__";
                              "__lookupSetter__"; "__proto__"]) then
    Some (fun _ => Throw JS_TypeError)
  else None.

(** ** Handlers and the dispatch table *)

#[global] Instance EventType_eq_dec : EqDecision EventType.
Proof. solve_decision. Defined.

#[global] Instance EventType_countable : Countable EventType.
Proof.
  refine (inj_countable'
            (fun e => match e with PushReceived => false | NotificationResponse => true end)
            (fun b => if b then NotificationResponse else PushReceived) _).
  by intros [].
Defined.

(** [NotificationEventHandler]: a named function from the decoded data to a
    completion signal. *)
Record Handler : Type := mkHandler {
  hname : string;
  hbody : JsonValue -> M Value;
}.

(** Calling a handler is an observable effect. *)
Definition invoke (h : Handler) (arg : JsonValue) : M Value :=
  emit (EvInvoke (hname h) arg);;
  hbody h arg.

(** [NotificationEventActionMap] *)
Abbreviation ActionMap := (gmap string Handler).
Abbreviation Table := (gmap EventType (gmap string Handler)).

Record PushPayload : Type := mkPushPayload {
  notificationId : option string;
  alert : option string;
  title : option string;
  subtitle : option string;
  extras : list (string * JsonValue);
}.

Section Program.

Context (env : Env).

(** ** parsePushNotificationPayload.ts *)

(** The body of the first [try] block; its result is what the block returns. *)
Definition parse_gzipped (payload : string) : M JsonValue :=
  binaryStringPayload <- lift_opt (atob env payload) (VError "InvalidCharacterError");;
  (if negb (startsWith binaryStringPayload GZIP_MAGIC_NUMBER)
   then throw (VError "Error")
   else ret tt);;
  log Info "[PushNotification] Detected gzipped payload, decompressing";;
  let compressed := char_codes binaryStringPayload in
  decompressed <- lift_opt (pako_inflate env compressed) (VError "inflate error");;
  jsonObject <- lift_opt (JSON_parse env decompressed) (VError "SyntaxError");;
  log Info "[PushNotification] Successfully parsed gzipped payload";;
  ret jsonObject.

(** The body of the second [try] block. *)
Definition parse_plain (payload : string) : M JsonValue :=
  jsonObject <- lift_opt (JSON_parse env payload) (VError "SyntaxError");;
  log Info "[PushNotification] Successfully parsed as regular JSON";;
  ret jsonObject.

Definition parsePushNotificationPayload (payload : option JsonValue) : M (option JsonValue) :=
  log Info "[PAYLOAD] Push notification payload parsing started";;
  match payload with
  | None =>
      log Warn "[PushNotification] Payload is undefined";;
      ret None
  | Some (JStr payload) =>
      log Info "[PushNotification] Payload is a string, attempting to parse";;
      (* Gzipped JSON String *)
      r <- try_catch
             (j <- parse_gzipped payload;; ret (Some j))
             (fun _ =>
                log Hmmm "[PushNotification] Failed to parse the payload as a Gzipped JSON string";;
                ret None);;
      match r with
      | Some j => ret (Some j)
      | None =>
          (* JSON String *)
          r <- try_catch
                 (j <- parse_plain payload;; ret (Some j))
                 (fun _ =>
                    log Hmmm "[PushNotification] Failed to parse the payload as a JSON string";;
                    ret None);;
          match r with
          | Some j => ret (Some j)
          | None =>
              log Warn "[PushNotification] All parsing attempts failed, returning undefined";;
              ret None
          end
      end
  | Some payload =>
      (* No need to parse if it's already an object *)
      log Info "[PushNotification] Payload is already an object, returning as-is";;
      ret (Some payload)
  end.

(** ** index.native.ts *)

Definition pushNotificationEventCallback (notificationEventActionMap : Table)
    (eventType : EventType) (notification : PushPayload) : M Value :=
  log Info "[RECEIVE] Push notification received at React Native layer";;
  let actionMap : ActionMap := default ∅ (notificationEventActionMap !! eventType) in
  log Info "[PushNotification] Push notification received - Event: ";;
  data <- parsePushNotificationPayload (assoc "payload" (extras notification));;
  log Info "[PushNotification] Callback triggered for ";;
  if negb (truthy_opt data) then
    log Warn "[PushNotification] Notification has null or undefined payload, not executing any callback.";;
    ret VUndefined
  else
    let data := default JNull data in
    let type := get_prop data "type" in
    if negb (truthy_opt type) then
      log Warn "[PushNotification] No type value provided in payload, not executing any callback.";;
      ret VUndefined
    else
      log Info "[PushNotification] Processing notification type: ";;
      (* const action = actionMap[data.type] *)
      match actionMap !! js_String type with
      | Some action =>
          log Info "[PushNotification] Executing action callback";;
          invoke action data
      | None =>
          match Object_prototype (js_String type) with
          | Some member =>
              (* an inherited member is truthy, and is called like a handler *)
              log Info "[PushNotification] Executing action callback";;
              lift_res (member data)
          | None =>
              log Warn "[PushNotification] No callback set up: ";;
              ret VUndefined
          end
      end.

(** [bind] of the source ([bind] here is the monad's). *)
Definition bind_handler (triggerEvent : EventType) (notificationType : string)
    (callback : Handler) (notificationEventActionMap : Table) : M Table :=
  log Info "[PushNotification] Binding callback for notification type";;
  actionMap <- match notificationEventActionMap !! triggerEvent with
               | Some actionMap => ret actionMap
               | None =>
                   log Info "[PushNotification] Creating new action map for trigger event";;
                   ret (∅ : ActionMap)
               end;;
  let actionMap := <[notificationType := callback]> actionMap in
  let notificationEventActionMap := <[triggerEvent := actionMap]> notificationEventActionMap in
  log Info "[PushNotification] Action map updated";;
  ret notificationEventActionMap.

Definition onReceived (notificationType : string) (callback : Handler) (t : Table) : M Table :=
  log Info "[PushNotification] Setting up onReceived callback";;
  bind_handler PushReceived notificationType callback t.

Definition onSelected (notificationType : string) (callback : Handler) (t : Table) : M Table :=
  log Info "[PushNotification] Setting up onSelected callback";;
  bind_handler NotificationResponse notificationType callback t.

Definition register (notificationID : NotificationID) : M Value :=
  log Info "[PushNotification] Starting registration process";;
  log Info "[PushNotification] Airship status check";;
  p <- ext_async Airship_contact_getNamedUserId (getNamedUserId env);;
  p <- then_ p (Some (CbGotNamedUser notificationID)) None;;
  _ <- catch_ p (CbRegisterFailed notificationID);;
  ret VUndefined.

(** [.then((userID) => ...)] of [register] *)
Definition register_gotNamedUser (notificationID : NotificationID) (userID : Value) : M Value :=
  log Info "[PushNotification] Current named user ID retrieved";;
  if strict_eq_string userID (NotificationID_toString notificationID) then
    (* No need to register again for this notificationID. *)
    log Info "[PushNotification] Already registered for this notification ID, skipping registration";;
    ret VUndefined
  else
    log Info "[PushNotification] Requesting push notification permissions";;
    p <- ext_async Airship_push_enableUserNotifications (enableUserNotifications env);;
    _ <- then_ p (Some (CbPermissionResult notificationID)) None;;
    log Info "[PushNotification] Subscribing to notifications with named user";;
    emit (EvCall (Airship_contact_identify (NotificationID_toString notificationID)));;
    q <- ext_async Airship_push_getNotificationStatus (getNotificationStatus env);;
    q <- then_ q (Some (CbStatusOk notificationID)) None;;
    _ <- catch_ q (CbStatusFailed notificationID);;
    ret VUndefined.

Definition register_permissionResult (isEnabled : Value) : M Value :=
  log Info "[PushNotification] Push notification permission result";;
  if truthy_value isEnabled then ret VUndefined
  else
    log Info "[PushNotification] User has disabled visible push notifications for this app.";;
    ret VUndefined.

(** ** subscribeToPushNotifications.ts *)

Definition safelyFinishBackgroundProcessing (context : string) : M Value :=
  match PushNotificationBridge env with
  | Some (mkBridge true) =>
      log Info ("[PushNotification] Finishing background processing - " +:+ context);;
      (* return NativeModules.PushNotificationBridge.finishBackgroundProcessing() *)
      match finishBackgroundProcessing env with
      | FinishReturnsUndefined =>
          emit (EvCall Bridge_finishBackgroundProcessing);;
          ret VUndefined
      | FinishThrows e =>
          emit (EvCall Bridge_finishBackgroundProcessing);;
          throw e
      | FinishReturnsPromise o =>
          p <- ext_async Bridge_finishBackgroundProcessing o;;
          ret (VPromise p)
      end
  | _ =>
      log Warn ("[PushNotification] PushNotificationBridge not available - " +:+ context);;
      (if DEV env
       then log Info "[PushNotification] Development environment - PushNotificationBridge absence may be normal"
       else ret tt);;
      Promise_resolve VUndefined
  end.

Definition getLastUpdateIDAppliedToClient : M nat :=
  p <- new_promise Pending;;
  emit (EvCall (Onyx_connect ONYX_UPDATES_LAST_UPDATE_ID_APPLIED_TO_CLIENT));;
  push_task (TCall (CbResolveLastUpdateID p)
               (of_opt (JNum <$> lastUpdateIDAppliedToClient env)));;
  ret p.

(** [callback: (value) => resolve(value ?? CONST.DEFAULT_NUMBER_ID)] *)
Definition resolveLastUpdateID (p : nat) (value : Value) : M Value :=
  resolve p (match value with
             | VUndefined | VJson JNull => VJson (JNum (DEFAULT_NUMBER_ID env))
             | _ => value
             end);;
  ret VUndefined.

Definition logMissingOnyxDataInfo (isDataMissing : bool) : M bool :=
  if isDataMissing then
    log Hmmm "[PushNotification] FAILED to apply onyx updates - missing data";;
    ret false
  else
    log Info "[PushNotification] SUCCESS - reliable onyx update received";;
    ret true.

(** The end of [applyOnyxData], once [updates] is built:
    [return getLastUpdateIDAppliedToClient().then(...).then(...).catch(...)] *)
Definition applyOnyxData_chain (reportID lastUpdateID : option JsonValue)
    (updates : OnyxUpdatesFromServer) : M Value :=
  p <- getLastUpdateIDAppliedToClient;;
  p <- then_ p (Some (CbApplyReliably reportID updates)) None;;
  p <- then_ p (Some (CbFinishSuccess reportID lastUpdateID)) None;;
  p <- catch_ p (CbFinishError reportID lastUpdateID);;
  ret (VPromise p).

Definition applyOnyxData (data : JsonValue) : M Value :=
  match data with
  | JNull => throw (VError "TypeError: Cannot destructure property of null")
  | _ =>
  let reportID := get_prop data "reportID" in
  let onyxData := get_prop data "onyxData" in
  let lastUpdateID := get_prop data "lastUpdateID" in
  let previousUpdateID := get_prop data "previousUpdateID" in
  let hasPendingOnyxUpdates := default (JBool false) (get_prop data "hasPendingOnyxUpdates") in
  log Info "[PushNotification] Starting to apply onyx data - ";;
  if truthy hasPendingOnyxUpdates then
    let isDataMissing := negb (truthy_opt lastUpdateID) in
    _ <- logMissingOnyxDataInfo isDataMissing;;
    if isDataMissing then Promise_resolve VUndefined
    else
      applyOnyxData_chain reportID lastUpdateID
        {| utype := AIRSHIP;
           lastUpdateID := default JNull lastUpdateID;
           previousUpdateID := None;
           shouldFetchPendingUpdates := Some true;
           updates := [] |}
  else
    let isDataMissing :=
      negb (truthy_opt lastUpdateID) || negb (truthy_opt onyxData)
      || negb (truthy_opt previousUpdateID) in
    _ <- logMissingOnyxDataInfo isDataMissing;;
    if isDataMissing then Promise_resolve VUndefined
    else
      applyOnyxData_chain reportID lastUpdateID
        {| utype := AIRSHIP;
           lastUpdateID := default JNull lastUpdateID;
           previousUpdateID := previousUpdateID;
           shouldFetchPendingUpdates := None;
           updates := [ {| eventType := ""; data := default JNull onyxData |} ] |}
  end.

(** [.then((lastUpdateIDAppliedToClient) => ...)] of [applyOnyxData] *)
Definition applyOnyxData_apply (updates : OnyxUpdatesFromServer)
    (lastUpdateIDAppliedToClient : Value) : M Value :=
  log Info "[PushNotification] Applying Onyx updates reliably";;
  let call := Call_applyOnyxUpdatesReliably updates true lastUpdateIDAppliedToClient in
  match applyOnyxUpdatesReliably env updates lastUpdateIDAppliedToClient with
  | ThrowsSync e => emit (EvCall call);; throw e
  | ReturnsPromise o => p <- ext_async call o;; ret (VPromise p)
  end.

Definition applyOnyxData_success : M Value :=
  log Info "[PushNotification] Onyx updates applied successfully, finishing background processing";;
  safelyFinishBackgroundProcessing "success".

Definition applyOnyxData_error : M Value :=
  log Alert "[PushNotification] Error applying Onyx updates";;
  (* Still need to finish background processing even on error, but safely *)
  safelyFinishBackgroundProcessing "error".

Definition navigateToReport (data : JsonValue) : M Value :=
  match data with
  | JNull => throw (VError "TypeError: Cannot destructure property of null")
  | _ =>
  let reportID := get_prop data "reportID" in
  log Info "[PushNotification] Starting navigation to report from push notification";;
  p <- ext_async Navigation_waitForProtectedRoutes (waitForProtectedRoutes env);;
  _ <- then_ p (Some (CbRoutesReady reportID)) None;;
  Promise_resolve VUndefined
  end.

(** The callback given to [Modal.close]. *)
Definition navigateToReport_modalClosed (reportID : option JsonValue) : M Value :=
  try_catch
    (single <- get_isSingleNewDotEntry;;
     (* When transitioning to the new experience via the singleNewDotEntry flow, the
        navigation is handled elsewhere. *)
     if default false single then
       log Info "[PushNotification] Skipping navigation - singleNewDotEntry flow";;
       ret VUndefined
     else
       (* Get rid of the transition screen, if it is on the top of the stack *)
       (if IS_HYBRID_APP env then
          route <- ext_call Navigation_getActiveRoute (getActiveRoute env);;
          if includes route (ROUTES_TRANSITION_BETWEEN_APPS env) then
            log Info "[PushNotification] Removing transition screen before navigation";;
            ext_call Navigation_goBack (goBack env)
          else ret tt
        else ret tt);;
       (* If a chat is visible other than the one we are trying to navigate to, then
          we need to navigate back *)
       activeRoute <- ext_call Navigation_getActiveRoute (getActiveRoute env);;
       let targetRoutePattern := "r/" +:+ js_String reportID in
       (if String.eqb (slice activeRoute 1 2) (ROUTES_REPORT env) then
          active <- ext_call (Navigation_isActiveRoute targetRoutePattern)
                      (isActiveRoute env targetRoutePattern);;
          if negb active then
            log Info "[PushNotification] Navigating back from current report before going to target";;
            ext_call Navigation_goBack (goBack env)
          else ret tt
        else ret tt);;
       let fullTargetRoute := REPORT_WITH_ID_getRoute env (js_String reportID) None in
       active <- ext_call (Navigation_isActiveRoute fullTargetRoute)
                   (isActiveRoute env fullTargetRoute);;
       backTo <- (if active then ret None
                  else r <- ext_call Navigation_getActiveRoute (getActiveRoute env);;
                       ret (Some r));;
       (* isAlreadyOnTargetRoute: Navigation.isActiveRoute(fullTargetRoute) *)
       _ <- ext_call (Navigation_isActiveRoute fullTargetRoute)
              (isActiveRoute env fullTargetRoute);;
       log Info "[PushNotification] Executing navigation to report";;
       let route := REPORT_WITH_ID_getRoute env (js_String reportID) backTo in
       ext_call (Navigation_navigate route) (navigate env route);;
       ext_call (App_updateLastVisitedPath fullTargetRoute)
         (updateLastVisitedPath env fullTargetRoute);;
       log Info "[PushNotification] Navigation completed successfully";;
       ret VUndefined)
    (fun error =>
       log Alert "[PushNotification] Navigation failed";;
       ret VUndefined).

(** [.then(() => { Modal.close(...) })] of [navigateToReport] *)
Definition navigateToReport_routesReady (reportID : option JsonValue) : M Value :=
  (* The attachment modal remains open when navigating to the report so we need to close it *)
  emit (EvCall Modal_close);;
  match Modal_close_mode env with
  | CallsBackNow => _ <- navigateToReport_modalClosed reportID;; ret tt
  | CallsBackLater => push_task (TCall (CbModalClosed reportID) VUndefined)
  | NeverCallsBack => ret tt
  end;;
  ret VUndefined.

(** [Onyx.connect({key: ONYXKEYS.HYBRID_APP, callback})] *)
Definition onHybridAppChanged (value : option (option bool)) : M unit :=
  match value with
  | None => ret tt
  | Some v => fun w => (Ok tt, set_isSingleNewDotEntry v w)
  end.

(** ** shouldShowPushNotification.ts *)

Definition shouldShowPushNotification (pushPayload : PushPayload) : M bool :=
  log Info "[FILTER] Push notification filtering started";;
  data <- parsePushNotificationPayload (assoc "payload" (extras pushPayload));;
  if negb (truthy_opt data) then
    log Warn "[PushNotification] No parsed data available for notification";;
    ret true
  else
    let data := default JNull data in
    log Info "[PushNotification] Parsed notification data";;
    shouldShow <-
      match get_prop data "type" with
      | Some (JStr "transaction") =>
          log Info "[PushNotification] Transaction notification - will be shown";;
          ret true
      | _ =>
          reportAction <-
            lift_res (getLatestReportActionFromOnyxData env
                        (match get_prop data "onyxData" with
                         | None | Some JNull => JNull
                         | Some onyxData => onyxData
                         end));;
          shouldShow <-
            lift_res (shouldShowReportActionNotification env
                        (js_String (get_prop data "reportID")) reportAction true);;
          log Info "[PushNotification] Report action notification evaluation";;
          ret shouldShow
      end;;
    log Info "[PushNotification] Final decision: ";;
    ret shouldShow.

(** ** Running callbacks: the event loop *)

Definition apply_callback (cb : Callback) (arg : Value) : M Value :=
  match cb with
  | CbResolveLastUpdateID p => resolveLastUpdateID p arg
  | CbApplyReliably _ u => applyOnyxData_apply u arg
  | CbFinishSuccess _ _ => applyOnyxData_success
  | CbFinishError _ _ => applyOnyxData_error
  | CbRoutesReady reportID => navigateToReport_routesReady reportID
  | CbModalClosed reportID => navigateToReport_modalClosed reportID
  | CbGotNamedUser id => register_gotNamedUser id arg
  | CbRegisterFailed _ =>
      log Warn "[PushNotification] Failed to register for push notifications! Reason: ";;
      ret VUndefined
  | CbPermissionResult _ => register_permissionResult arg
  | CbStatusOk _ =>
      log Info "[PushNotification] Notification status after registration";;
      ret VUndefined
  | CbStatusFailed _ =>
      log Warn "[PushNotification] Failed to get notification status";;
      ret VUndefined
  end.

Definition run_reaction (r : Reaction) (s : Settlement) : M unit :=
  match r with
  | RCallback onFulfilled onRejected derived =>
      let handler := match s with
                     | Fulfilled _ => onFulfilled
                     | Rejected _ => onRejected
                     end in
      match handler with
      | None =>
          match s with
          | Fulfilled v => resolve derived v
          | Rejected e => settle derived (Rejected e)
          end
      | Some cb =>
          fun w =>
            match apply_callback cb (settled_value s) w with
            | (Ok v, w') => resolve derived v w'
            | (Throw e, w') => settle derived (Rejected e) w'
            end
      end
  | RAdopt target =>
      match s with
      | Fulfilled v => resolve target v
      | Rejected e => settle target (Rejected e)
      end
  end.

Definition run_job (j : Job) : M unit :=
  match j with
  | JReact r s => run_reaction r s
  | JResolveThenable target thenable => subscribe thenable (RAdopt target)
  end.

Definition run_task (t : Task) : M unit :=
  match t with
  | TSettle p s => settle p s
  | TCall cb arg =>
      try_catch (_ <- apply_callback cb arg;; ret tt) (fun e => emit (EvUncaught e))
  end.

(** One turn: the oldest microtask if there is one, otherwise the oldest
    pending external completion. *)
Definition step (w : World) : option World :=
  match microtasks w with
  | j :: rest => Some (snd (run_job j (set_microtasks rest w)))
  | [] =>
      match macrotasks w with
      | t :: rest => Some (snd (run_task t (set_macrotasks rest w)))
      | [] => None
      end
  end.

Fixpoint run (fuel : nat) (w : World) : World :=
  match fuel with
  | O => w
  | S fuel =>
      match step w with
      | Some w' => run fuel w'
      | None => w
      end
  end.

Definition quiescent (w : World) : Prop := step w = None.

End Program.

(** An idle event loop with whatever promises [h] there are. *)
Definition idle_world (h : list Cell) (t : list Event) (single : option bool) : World :=
  mkWorld h [] [] t single.

Definition init_world : World := idle_world [] [] None.

(** ** Observations on worlds and traces *)

(** [w] after the events [evs] (newest first) and nothing else. *)
Definition logged (evs : list Event) (w : World) : World :=
  set_trace (evs ++ trace w) w.

Definition is_log (e : Event) : bool :=
  match e with
  | EvLog _ _ => true
  | _ => false
  end.

Definition is_finish_signal (e : Event) : bool :=
  match e with
  | EvCall Bridge_finishBackgroundProcessing => true
  | _ => false
  end.

Definition is_collaborator_call (e : Event) : bool :=
  match e with
  | EvCall (Call_applyOnyxUpdatesReliably _ _ _) => true
  | _ => false
  end.

Definition is_identify_or_permission (e : Event) : bool :=
  match e with
  | EvCall (Airship_contact_identify _) => true
  | EvCall Airship_push_enableUserNotifications => true
  | _ => false
  end.

Definition is_invoke (e : Event) : bool :=
  match e with
  | EvInvoke _ _ => true
  | _ => false
  end.

(** How often an event of the kind [f] occurs in a trace. *)
Definition count (f : Event -> bool) (t : list Event) : nat :=
  length (filter (fun e => f e = true) t).

(** What the Payload Decoder yields for [payload], in whatever world it runs. *)
Definition decoder_yields (env : Env) (payload r : option JsonValue) : Prop :=
  forall w, fst (parsePushNotificationPayload env payload w) = Ok r.

(** The handler bound to an (event-kind, notification-type) pair. *)
Definition lookup_handler (t : Table) (ev : EventType) (type : string) : option Handler :=
  t !! ev ≫= (fun actionMap : ActionMap => actionMap !! type).

(** ** The Payload Decoder, as the specification words it

    [decoder_reference] is the reference definition of the decoder, written
    after the specification and not after the code. *)

Definition begins_with_gzip_magic (bytes : list Z) : bool :=
  match bytes with
  | 0x1F :: 0x8B :: _ => true
  | _ => false
  end.

(** Gzip path: base64-decode; fail unless the bytes begin with 0x1F 0x8B;
    otherwise decompress to text and parse it as JSON. *)
Definition gzip_path (env : Env) (s : string) : option JsonValue :=
  decoded ← atob env s;
  if begins_with_gzip_magic (char_codes decoded)
  then text ← pako_inflate env (char_codes decoded); JSON_parse env text
  else None.

Definition decoder_reference (env : Env) (payload : option JsonValue) : option JsonValue :=
  match payload with
  | None => None                                (* undefined: no data *)
  | Some (JStr s) =>
      match gzip_path env s with
      | Some j => Some j
      | None => JSON_parse env s                (* plain JSON path, else no data *)
      end
  | Some object => Some object                  (* returned unchanged *)
  end.

(** What dispatch comes down to for decoded data [r]: the handler to call and
    its argument, if any. *)
Definition dispatch_target (t : Table) (ev : EventType) (r : option JsonValue)
  : option (Handler * JsonValue) :=
  data ← r;
  type ← get_prop data "type";
  if truthy data && truthy type
  then h ← lookup_handler t ev (js_toString type); Some (h, data)
  else None.


(** What dispatch calls instead when no handler is bound for the type and the
    type is the name of a member inherited from [Object.prototype]: the
    result of that call. *)
Definition inherited_target (t : Table) (ev : EventType) (r : option JsonValue)
  : option (Res Value) :=
  data ← r;
  type ← get_prop data "type";
  if truthy data && truthy type
  then match lookup_handler t ev (js_toString type) with
       | Some _ => None
       | None => member ← Object_prototype (js_toString type); Some (member data)
       end
  else None.

(** The finish call comes back: it returns undefined or a promise that is
    fulfilled, and neither throws nor returns a promise that is rejected or
    never settles. *)
Definition finish_returns_normally (env : Env) : Prop :=
  finishBackgroundProcessing env = FinishReturnsUndefined
  \/ exists v, finishBackgroundProcessing env = FinishReturnsPromise (Resolves v).

(** The finish call does not fail: it neither throws nor returns a promise
    that is rejected. *)
Definition finish_does_not_fail (env : Env) : Prop :=
  (forall e, finishBackgroundProcessing env <> FinishThrows e) /\
  (forall e, finishBackgroundProcessing env <> FinishReturnsPromise (Rejects e)).

(** A sequence of bind calls, oldest first. *)
Fixpoint bind_all (bs : list (EventType * string * Handler)) (t : Table)
  : M Table :=
  match bs with
  | [] => ret t
  | (ev, type, h) :: rest =>
      t' <- bind_handler ev type h t;;
      bind_all rest t'
  end.

(** The handler that a sequence of binds leaves for a pair: the one bound to
    it last, or the one that was there [before]. *)
Fixpoint latest_bound (bs : list (EventType * string * Handler))
    (ev : EventType) (type : string) (before : option Handler) : option Handler :=
  match bs with
  | [] => before
  | (ev', type', h) :: rest =>
      latest_bound rest ev type
        (if decide (ev' = ev /\ type' = type) then Some h else before)
  end.

(** The promise [v] is fulfilled with [x] in [w]. *)
Definition fulfilled_with (w : World) (v x : Value) : Prop :=
  exists p, v = VPromise p /\ promise_state w p = Some (Settled (Fulfilled x)).

(** [w] with one more promise, already fulfilled with undefined. *)
Definition with_resolved_promise (w : World) : World :=
  set_heap (heap w ++ [mkCell (Settled (Fulfilled VUndefined)) []]) w.

(** [applyOnyxData]'s view of its input. *)
Definition hasPendingOnyxUpdates_of (data : JsonValue) : bool :=
  truthy (default (JBool false) (get_prop data "hasPendingOnyxUpdates")).

(** The field is absent (or holds a falsy value, which [!field] treats alike). *)
Definition lacks (data : JsonValue) (key : string) : Prop :=
  truthy_opt (get_prop data key) = false.

Definition has (data : JsonValue) (key : string) : Prop :=
  truthy_opt (get_prop data key) = true.

Definition missing_required_field (data : JsonValue) : Prop :=
  if hasPendingOnyxUpdates_of data
  then lacks data "lastUpdateID"
  else lacks data "lastUpdateID" \/ lacks data "previousUpdateID" \/ lacks data "onyxData".

Definition required_fields_present (data : JsonValue) : Prop :=
  if hasPendingOnyxUpdates_of data
  then has data "lastUpdateID"
  else has data "lastUpdateID" /\ has data "previousUpdateID" /\ has data "onyxData".

(** Every promise settled in [h] is settled the same way in [h']. *)
Definition heap_le (h h' : list Cell) : Prop :=
  forall p s,
    pstate <$> h !! p = Some (Settled s) -> pstate <$> h' !! p = Some (Settled s).

(** The computation never changes a promise that is already settled. *)
Definition keeps_settled {A} (m : M A) : Prop :=
  forall w, heap_le (heap w) (heap (snd (m w))).

(** Run from an idle loop, the call [applyOnyxData data] comes to rest having
    sent the "finish background processing" signal exactly once. *)
Definition finish_signal_sent_once (env : Env) (data : JsonValue)
    (h : list Cell) (t : list Event) (single : option bool) : Prop :=
  exists k evs,
    let w' := run env k (snd (applyOnyxData env data (idle_world h t single))) in
    quiescent env w' /\
    trace w' = evs ++ t /\
    count is_finish_signal evs = 1%nat.

(** ** An environment for examples

    Every collaborator succeeds.  The three library functions are stand-ins
    that know a few inputs: ["H4sIAAAA"] is the base64 text of the bytes
    1F 8B 08 00 00 00, which [pako_inflate] takes to [example_text], and
    ["1234"] is both base64 (of bytes that are no gzip header) and JSON. *)

Definition example_text : string := "{type:reportComment,reportID:7,...}".

Definition example_update : JsonValue :=
  JObj [("type", JStr "reportComment"); ("reportID", JNum 7);
        ("lastUpdateID", JNum 100); ("previousUpdateID", JNum 99);
        ("onyxData", JArr [])].

Definition example_env : Env := {|
  atob := fun s =>
    if String.eqb s "H4sIAAAA"
    then Some (GZIP_MAGIC_NUMBER
               +:+ String (ascii_of_nat 8) (String zero (String zero (String zero EmptyString))))
    else if String.eqb s "1234"
    then Some (String (ascii_of_nat 215) (String (ascii_of_nat 109)
                 (String (ascii_of_nat 248) EmptyString)))
    else None;
  pako_inflate := fun bytes =>
    if bool_decide (bytes = [0x1F; 0x8B; 8; 0; 0; 0]) then Some example_text else None;
  JSON_parse := fun s =>
    if String.eqb s example_text then Some example_update
    else if String.eqb s "1234" then Some (JNum 1234)
    else None;
  DEFAULT_NUMBER_ID := 0;
  ROUTES_REPORT := "r";
  ROUTES_TRANSITION_BETWEEN_APPS := "transition";
  REPORT_WITH_ID_getRoute := fun reportID backTo =>
    match backTo with
    | Some b => "r/" +:+ reportID +:+ "?backTo=" +:+ b
    | None => "r/" +:+ reportID
    end;
  IS_HYBRID_APP := false;
  DEV := false;
  PushNotificationBridge := Some (mkBridge true);
  finishBackgroundProcessing := FinishReturnsUndefined;
  lastUpdateIDAppliedToClient := Some 99;
  applyOnyxUpdatesReliably := fun _ _ => ReturnsPromise (Resolves None);
  getNamedUserId := Resolves (Some (JStr "42"));
  enableUserNotifications := Resolves (Some (JBool true));
  getNotificationStatus := Resolves None;
  waitForProtectedRoutes := Resolves None;
  Modal_close_mode := CallsBackNow;
  getActiveRoute := fun _ => Ok "/r/1";
  isActiveRoute := fun _ _ => Ok false;
  goBack := fun _ => Ok tt;
  navigate := fun _ _ => Ok tt;
  updateLastVisitedPath := fun _ _ => Ok tt;
  getLatestReportActionFromOnyxData := fun _ => Ok VUndefined;
  shouldShowReportActionNotification := fun _ _ _ => Ok false;
|}.

(** The same, with a navigation collaborator whose [navigate] throws. *)
Definition example_env_navigation_fails : Env := {|
  atob := atob example_env;
  pako_inflate := pako_inflate example_env;
  JSON_parse := JSON_parse example_env;
  DEFAULT_NUMBER_ID := 0;
  ROUTES_REPORT := "r";
  ROUTES_TRANSITION_BETWEEN_APPS := "transition";
  REPORT_WITH_ID_getRoute := REPORT_WITH_ID_getRoute example_env;
  IS_HYBRID_APP := false;
  DEV := false;
  PushNotificationBridge := Some (mkBridge true);
  finishBackgroundProcessing := FinishReturnsUndefined;
  lastUpdateIDAppliedToClient := Some 99;
  applyOnyxUpdatesReliably := fun _ _ => ReturnsPromise (Rejects (VError "network"));
  getNamedUserId := Resolves (Some (JStr "42"));
  enableUserNotifications := Resolves (Some (JBool true));
  getNotificationStatus := Resolves None;
  waitForProtectedRoutes := Resolves None;
  Modal_close_mode := CallsBackLater;
  getActiveRoute := fun _ => Ok "/r/1";
  isActiveRoute := fun _ _ => Ok false;
  goBack := fun _ => Ok tt;
  navigate := fun _ _ => Throw (VError "navigation is not ready");
  updateLastVisitedPath := fun _ _ => Ok tt;
  getLatestReportActionFromOnyxData := fun _ => Ok VUndefined;
  shouldShowReportActionNotification := fun _ _ _ => Ok false;
|}.

(** The same, without the host bridge (a development build). *)
Definition example_env_no_bridge : Env := {|
  atob := atob example_env;
  pako_inflate := pako_inflate example_env;
  JSON_parse := JSON_parse example_env;
  DEFAULT_NUMBER_ID := 0;
  ROUTES_REPORT := "r";
  ROUTES_TRANSITION_BETWEEN_APPS := "transition";
  REPORT_WITH_ID_getRoute := REPORT_WITH_ID_getRoute example_env;
  IS_HYBRID_APP := false;
  DEV := true;
  PushNotificationBridge := None;
  finishBackgroundProcessing := FinishThrows (VError "no bridge");
  lastUpdateIDAppliedToClient := None;
  applyOnyxUpdatesReliably := applyOnyxUpdatesReliably example_env;
  getNamedUserId := Hangs;
  enableUserNotifications := Hangs;
  getNotificationStatus := Hangs;
  waitForProtectedRoutes := Hangs;
  Modal_close_mode := NeverCallsBack;
  getActiveRoute := getActiveRoute example_env;
  isActiveRoute := isActiveRoute example_env;
  goBack := goBack example_env;
  navigate := navigate example_env;
  updateLastVisitedPath := updateLastVisitedPath example_env;
  getLatestReportActionFromOnyxData := fun _ => Ok VUndefined;
  shouldShowReportActionNotification := fun _ _ _ => Ok false;
|}.

Definition example_handler : Handler :=
  mkHandler "H" (fun _ => Promise_resolve VUndefined).

Definition example_data : JsonValue :=
  JObj [("type", JStr "transaction"); ("reportID", JNum 42)].

Definition example_notification (payload : option JsonValue) : PushPayload :=
  {| notificationId := Some "n1"; alert := None; title := None; subtitle := None;
     extras := match payload with
               | Some p => [("payload", p)]
               | None => []
               end |}.


(** * More of the code: vocabulary

    What follows serves the properties of the second half of the file: further
    observations on traces, and a postcondition for computations that change
    nothing but the trace. *)

Definition is_navigation_step (e : Event) : bool :=
  match e with
  | EvCall Navigation_getActiveRoute
  | EvCall (Navigation_isActiveRoute _)
  | EvCall Navigation_goBack
  | EvCall (Navigation_navigate _)
  | EvCall (App_updateLastVisitedPath _) => true
  | _ => false
  end.


(** The events of the kind [f] in a trace, newest first. *)
Definition events_of (f : Event -> bool) (t : list Event) : list Event :=
  filter (fun e => f e = true) t.

(** [m], run in [w], adds the events [evs] to the trace, changes nothing else
    and ends with [r], where [Q r evs]. *)
Definition post {A} (m : M A) (w : World) (Q : Res A -> list Event -> Prop) : Prop :=
  exists r evs, m w = (r, logged evs w) /\ Q r evs.

(** A collaborator that answers every call. *)
Definition never_throws {A} (answer : list Event -> Res A) : Prop :=
  forall t, exists a, answer t = Ok a.

Definition always_throws {A} (answer : list Event -> Res A) : Prop :=
  forall t, exists e, answer t = Throw e.

(** The pending completion that [ext_async] leaves for promise [p]. *)
Definition completion (o : Outcome) (p : nat) : list Task :=
  match o with
  | Resolves v => [TSettle p (Fulfilled (of_opt v))]
  | Rejects e => [TSettle p (Rejected e)]
  | Hangs => []
  end.

(** The computation only adds to the trace. *)
Definition trace_grows {A} (m : M A) : Prop :=
  forall w, exists evs, trace (snd (m w)) = evs ++ trace w.

(** [navigateToReport] on data that can be destructured, given its
    [reportID]. *)
Definition navigateToReport_of (env : Env) (reportID : option JsonValue) : M Value :=
  log Info "[PushNotification] Starting navigation to report from push notification";;
  p <- ext_async Navigation_waitForProtectedRoutes (waitForProtectedRoutes env);;
  _ <- then_ p (Some (CbRoutesReady reportID)) None;;
  Promise_resolve VUndefined.

(** An environment in which the collaborators fail: the reliable-update
    collaborator never settles and the SDK rejects every request. *)
Definition example_env_collaborator_hangs : Env := {|
  atob := atob example_env;
  pako_inflate := pako_inflate example_env;
  JSON_parse := JSON_parse example_env;
  DEFAULT_NUMBER_ID := 0;
  ROUTES_REPORT := "r";
  ROUTES_TRANSITION_BETWEEN_APPS := "transition";
  REPORT_WITH_ID_getRoute := REPORT_WITH_ID_getRoute example_env;
  IS_HYBRID_APP := true;
  DEV := false;
  PushNotificationBridge := Some (mkBridge true);
  finishBackgroundProcessing := FinishReturnsUndefined;
  lastUpdateIDAppliedToClient := None;
  applyOnyxUpdatesReliably := fun _ _ => ReturnsPromise Hangs;
  getNamedUserId := Rejects (VError "airship is not ready");
  enableUserNotifications := Rejects (VError "denied");
  getNotificationStatus := Rejects (VError "unavailable");
  waitForProtectedRoutes := Rejects (VError "signed out");
  Modal_close_mode := CallsBackNow;
  getActiveRoute := fun _ => Ok "/transition";
  isActiveRoute := fun _ _ => Ok true;
  goBack := goBack example_env;
  navigate := navigate example_env;
  updateLastVisitedPath := updateLastVisitedPath example_env;
  getLatestReportActionFromOnyxData := fun _ => Ok VUndefined;
  shouldShowReportActionNotification := fun _ _ _ => Ok true;
|}.

(** [applyOnyxData] and [navigateToReport] as notification handlers. *)
Definition applyOnyxData_handler (env : Env) : Handler :=
  mkHandler "applyOnyxData" (applyOnyxData env).

Definition navigateToReport_handler (env : Env) : Handler :=
  mkHandler "navigateToReport" (navigateToReport env).

(** The six bindings of the sign-in callback.  The values of
    [PushNotification.TYPE] are defined outside this code. *)
Definition bind_notification_handlers (env : Env)
    (REPORT_COMMENT REPORT_ACTION TRANSACTION : string) (t : Table) : M Table :=
  t <- onReceived REPORT_COMMENT (applyOnyxData_handler env) t;;
  t <- onSelected REPORT_COMMENT (navigateToReport_handler env) t;;
  t <- onReceived REPORT_ACTION (applyOnyxData_handler env) t;;
  t <- onSelected REPORT_ACTION (navigateToReport_handler env) t;;
  t <- onReceived TRANSACTION (applyOnyxData_handler env) t;;
  onSelected TRANSACTION (navigateToReport_handler env) t.



(** An environment in which the bridge's finish call throws. *)
Definition example_env_finish_throws : Env := {|
  atob := atob example_env;
  pako_inflate := pako_inflate example_env;
  JSON_parse := JSON_parse example_env;
  DEFAULT_NUMBER_ID := 0;
  ROUTES_REPORT := "r";
  ROUTES_TRANSITION_BETWEEN_APPS := "transition";
  REPORT_WITH_ID_getRoute := REPORT_WITH_ID_getRoute example_env;
  IS_HYBRID_APP := false;
  DEV := false;
  PushNotificationBridge := Some (mkBridge true);
  finishBackgroundProcessing := FinishThrows (VError "bridge is gone");
  lastUpdateIDAppliedToClient := Some 99;
  applyOnyxUpdatesReliably := applyOnyxUpdatesReliably example_env;
  getNamedUserId := getNamedUserId example_env;
  enableUserNotifications := enableUserNotifications example_env;
  getNotificationStatus := getNotificationStatus example_env;
  waitForProtectedRoutes := waitForProtectedRoutes example_env;
  Modal_close_mode := CallsBackNow;
  getActiveRoute := getActiveRoute example_env;
  isActiveRoute := isActiveRoute example_env;
  goBack := goBack example_env;
  navigate := navigate example_env;
  updateLastVisitedPath := updateLastVisitedPath example_env;
  getLatestReportActionFromOnyxData := fun _ => Throw (VError "no report action");
  shouldShowReportActionNotification := fun _ _ _ => Ok false;
|}.

(** * HttpUtils.ts

    The module state of [HttpUtils.ts] (the two failure switches and the map
    of abort controllers), the functions and callbacks that read and change
    it, and the two callbacks of [processHTTPRequest] that decide whether a
    response is returned or turned into an error.

    An [AbortController] is an object with identity: the map holds references
    to controllers, and so does every request that was given a signal.
    Controllers live in a store, one cell per [new AbortController()], whose
    content is the [aborted] flag of the controller's signal; a reference is
    the index of the cell.  [fetch], [prepareRequestPayload], the time-skew
    computation of the first callback, and [console.log] are not modelled. *)

Module HttpUtils.

(** Values of [CONST] that the code compares with or passes on; they are
    defined outside this code. *)
Record Const : Type := mkConst {
  ERROR_FAILED_TO_FETCH : string;
  ERROR_EXPENSIFY_SERVICE_INTERRUPTED : string;
  ERROR_THROTTLED : string;
  ERROR_DUPLICATE_RECORD : string;
  ERROR_TITLE_DUPLICATE_RECORD : string;
  ERROR_TITLE_SOCKET : string;
  ERROR_TYPE_SOCKET : string;
  HTTP_STATUS_INTERNAL_SERVER_ERROR : Z;
  HTTP_STATUS_BAD_GATEWAY : Z;
  HTTP_STATUS_GATEWAY_TIMEOUT : Z;
  HTTP_STATUS_UNKNOWN_ERROR : Z;
  HTTP_STATUS_TOO_MANY_REQUESTS : Z;
  JSON_CODE_BAD_REQUEST : Z;
  JSON_CODE_EXP_ERROR : Z;
  JSON_CODE_UPDATE_REQUIRED : Z;
}.

(** What a callback throws. *)
Inductive Thrown : Type :=
| HttpsError (message : string) (status title : option string)
| TypeError (msg : string).

(** What leaves the module besides the result. *)
Inductive Effect : Type :=
| Alert (title message : string)
| AlertUser.

Record State : Type := mkState {
  shouldFailAllRequests : bool;
  shouldForceOffline : bool;
  (* the [aborted] flag of every controller created so far *)
  controllers : list bool;
  abortControllerMap : gmap string nat;
}.

Definition ABORT_COMMANDS_All : string := "All".
(* [ABORT_COMMANDS.SearchForReports] is read from the key
   [READ_COMMANDS.SEARCH_FOR_REPORTS], so that is the constant's value. *)
Definition ABORT_COMMANDS_SearchForReports : string := "SearchForReports".

(** [new AbortController()] *)
Definition new_AbortController (st : State) : nat * State :=
  (length (controllers st),
   mkState (shouldFailAllRequests st) (shouldForceOffline st)
     (controllers st ++ [false]) (abortControllerMap st)).

(** [controller.abort()] *)
Definition abort (controller : nat) (st : State) : State :=
  mkState (shouldFailAllRequests st) (shouldForceOffline st)
    (<[controller := true]> (controllers st)) (abortControllerMap st).

(** [abortControllerMap.set(command, controller)] *)
Definition abortControllerMap_set (command : string) (controller : nat) (st : State) : State :=
  mkState (shouldFailAllRequests st) (shouldForceOffline st)
    (controllers st) (<[command := controller]> (abortControllerMap st)).

(** [controller.signal.aborted] *)
Definition aborted (st : State) (controller : nat) : bool :=
  default false (controllers st !! controller).

(** The state after the module's top-level statements. *)
Definition initial : State :=
  let st := mkState false false [] ∅ in
  let '(c, st) := new_AbortController st in
  let st := abortControllerMap_set ABORT_COMMANDS_All c st in
  let '(c, st) := new_AbortController st in
  abortControllerMap_set ABORT_COMMANDS_SearchForReports c st.

(** The callback of [Onyx.connect] for [ONYXKEYS.NETWORK]. *)
Definition onNetworkChanged (network : option JsonValue) (st : State) : State :=
  if negb (truthy_opt network) then st
  else
    let network := default JNull network in
    mkState (truthy_opt (get_prop network "shouldFailAllRequests"))
      (truthy_opt (get_prop network "shouldForceOffline"))
      (controllers st) (abortControllerMap st).

(** [cancelPendingRequests]; [None] is the omitted argument. *)
Definition cancelPendingRequests (command : option string) (st : State) : State :=
  let command := default ABORT_COMMANDS_All command in
  let controller := abortControllerMap st !! command in
  let st := match controller with
            | Some controller => abort controller st
            | None => st
            end in
  (* We create a new instance because once `abort()` is called any future
     requests using the same controller would automatically get rejected *)
  let '(c, st) := new_AbortController st in
  abortControllerMap_set command c st.

(** [abortSignalController] of [xhr]: the controller whose signal the request
    is given, if any. *)
Definition xhr_abortSignalController (command : string) (data : list (string * JsonValue))
    (st : State) : option nat :=
  if truthy_opt (assoc "canCancel" data)
  then match abortControllerMap st !! command with
       | Some controller => Some controller
       | None => abortControllerMap st !! ABORT_COMMANDS_All
       end
  else None.

(** A fetch [Response], as far as the code reads it. *)
Record Response : Type := mkResponse {
  ok : bool;
  status : Z;
  statusText : string;
}.

(** The second [.then] callback of [processHTTPRequest]: it throws, or returns
    [response.json()], written [inr response]. *)
Definition processHTTPRequest_checkResponse (c : Const) (st : State) (response : Response)
  : Thrown + Response :=
  (* Test mode where all requests will succeed in the server, but fail to return a response *)
  if shouldFailAllRequests st || shouldForceOffline st then
    inl (HttpsError (ERROR_FAILED_TO_FETCH c) None None)
  else if negb (ok response) then
    let serviceInterruptedStatuses :=
      [HTTP_STATUS_INTERNAL_SERVER_ERROR c; HTTP_STATUS_BAD_GATEWAY c;
       HTTP_STATUS_GATEWAY_TIMEOUT c; HTTP_STATUS_UNKNOWN_ERROR c] in
    if bool_decide (status response ∈ serviceInterruptedStatuses) then
      inl (HttpsError (ERROR_EXPENSIFY_SERVICE_INTERRUPTED c)
             (Some (Number_toString (status response)))
             (Some "Issue connecting to Expensify site"))
    else if status response =? HTTP_STATUS_TOO_MANY_REQUESTS c then
      inl (HttpsError (ERROR_THROTTLED c)
             (Some (Number_toString (status response)))
             (Some "API request throttled"))
    else
      inl (HttpsError (statusText response) (Some (Number_toString (status response))) None)
  else inr response.

(** [x === n] and [x === s] for a number and a string constant *)
Definition strict_eq_num (x : option JsonValue) (n : Z) : bool :=
  match x with
  | Some (JNum m) => m =? n
  | _ => false
  end.

Definition strict_eq_str (x : option JsonValue) (s : string) : bool :=
  match x with
  | Some (JStr s') => String.eqb s' s
  | _ => false
  end.

(** [x?.length] *)
Definition js_length (x : option JsonValue) : option JsonValue :=
  match x with
  | Some (JArr items) => Some (JNum (Z.of_nat (length items)))
  | Some (JStr s) => Some (JNum (Z.of_nat (String.length s)))
  | Some (JObj fields) => assoc "length" fields
  | _ => None
  end.

(** [x ?? y] *)
Definition nullish_or (x : option JsonValue) (y : JsonValue) : JsonValue :=
  match x with
  | None | Some JNull => y
  | Some v => v
  end.

(** [items.join(separator)] of an array *)
Fixpoint Array_join (separator : string) (items : list JsonValue) : string :=
  match items with
  | [] => ""
  | x :: rest =>
      let sx := match x with JNull => "" | _ => js_toString x end in
      match rest with
      | [] => sx
      | _ :: _ => sx +:+ separator +:+ Array_join separator rest
      end
  end.

Definition too_many_auth_writes_message (phpCommandName : option JsonValue)
    (authWriteCommands : list JsonValue) : string :=
  "The API command " +:+ js_String phpCommandName
  +:+ " is doing too many Auth writes. Count "
  +:+ Number_toString (Z.of_nat (length authWriteCommands))
  +:+ ", commands: " +:+ Array_join ", " authWriteCommands
  +:+ ". If you modified this command, you MUST refactor it to remove the extra Auth writes. Otherwise, update the allowed write count in Web-Expensify APIWriteCommands.".

(** The block of the third callback that reports too many Auth writes: the
    alert it raises, if any, or what it throws. *)
Definition alertTooManyAuthWrites (response : JsonValue) : Thrown + list Effect :=
  let data := get_prop response "data" in
  let authWriteCommands := get_prop (default JNull data) "authWriteCommands" in
  if truthy_opt data && truthy (nullish_or (js_length authWriteCommands) (JNum 0)) then
    match authWriteCommands with
    | Some (JArr items) =>
        inr [Alert "Too many auth writes"
               (too_many_auth_writes_message
                  (get_prop (default JNull data) "phpCommandName") items)]
    | _ => inl (TypeError "authWriteCommands.join is not a function")
    end
  else inr [].

(** The third [.then] callback of [processHTTPRequest], on the parsed body. *)
Definition processHTTPRequest_checkJson (c : Const) (response : JsonValue)
  : list Effect * (Thrown + JsonValue) :=
  match response with
  | JNull => ([], inl (TypeError "Cannot read properties of null (reading 'jsonCode')"))
  | _ =>
  (* Some retried requests will result in a "Unique Constraints Violation" error from the
     server, which just means the record already exists *)
  if strict_eq_num (get_prop response "jsonCode") (JSON_CODE_BAD_REQUEST c)
     && strict_eq_str (get_prop response "message") (ERROR_TITLE_DUPLICATE_RECORD c) then
    ([], inl (HttpsError (ERROR_DUPLICATE_RECORD c)
                (Some (Number_toString (JSON_CODE_BAD_REQUEST c)))
                (Some (ERROR_TITLE_DUPLICATE_RECORD c))))
  (* Auth is down or timed out while making a request *)
  else if strict_eq_num (get_prop response "jsonCode") (JSON_CODE_EXP_ERROR c)
          && strict_eq_str (get_prop response "title") (ERROR_TITLE_SOCKET c)
          && strict_eq_str (get_prop response "type") (ERROR_TYPE_SOCKET c) then
    ([], inl (HttpsError (ERROR_EXPENSIFY_SERVICE_INTERRUPTED c)
                (Some (Number_toString (JSON_CODE_EXP_ERROR c)))
                (Some (ERROR_TITLE_SOCKET c))))
  else
    match alertTooManyAuthWrites response with
    | inl e => ([], inl e)
    | inr effects =>
        if strict_eq_num (get_prop response "jsonCode") (JSON_CODE_UPDATE_REQUIRED c) then
          (* Trigger a modal and disable the app as the user needs to upgrade to the
             latest minimum version to continue *)
          (effects ++ [AlertUser], inr response)
        else (effects, inr response)
    end
  end.

End HttpUtils.

(** ** Words for the properties of HttpUtils *)

Module HttpUtilsSpec.
Import HttpUtils.

(** What can happen to the module state from outside. *)
Inductive Action : Type :=
| CancelPendingRequests (command : option string)
| NetworkChanged (network : option JsonValue).

Definition perform (st : State) (a : Action) : State :=
  match a with
  | CancelPendingRequests command => cancelPendingRequests command st
  | NetworkChanged network => onNetworkChanged network st
  end.

(** The module state after the actions, oldest first. *)
Definition after (actions : list Action) : State := foldl perform initial actions.

(** Every controller in the map exists and has not been aborted, no controller
    is in the map twice, and the two commands of [ABORT_COMMANDS] are there. *)
Definition well_formed (st : State) : Prop :=
  is_Some (abortControllerMap st !! ABORT_COMMANDS_All) /\
  is_Some (abortControllerMap st !! ABORT_COMMANDS_SearchForReports) /\
  (forall k c, abortControllerMap st !! k = Some c -> controllers st !! c = Some false) /\
  (forall k1 k2 c,
      abortControllerMap st !! k1 = Some c -> abortControllerMap st !! k2 = Some c -> k1 = k2).

(** The switch that makes every request fail is on. *)
Definition forced_to_fail (st : State) : bool :=
  shouldFailAllRequests st || shouldForceOffline st.

(** [response.jsonCode === BAD_REQUEST && response.message === DUPLICATE_RECORD] *)
Definition is_duplicate_record (c : Const) (response : JsonValue) : bool :=
  strict_eq_num (get_prop response "jsonCode") (JSON_CODE_BAD_REQUEST c)
  && strict_eq_str (get_prop response "message") (ERROR_TITLE_DUPLICATE_RECORD c).

Definition is_socket_error (c : Const) (response : JsonValue) : bool :=
  strict_eq_num (get_prop response "jsonCode") (JSON_CODE_EXP_ERROR c)
  && strict_eq_str (get_prop response "title") (ERROR_TITLE_SOCKET c)
  && strict_eq_str (get_prop response "type") (ERROR_TYPE_SOCKET c).

Definition example_const : Const := {|
  ERROR_FAILED_TO_FETCH := "Failed to fetch";
  ERROR_EXPENSIFY_SERVICE_INTERRUPTED := "Expensify service interrupted";
  ERROR_THROTTLED := "Request throttled";
  ERROR_DUPLICATE_RECORD := "A record already exists with this ID";
  ERROR_TITLE_DUPLICATE_RECORD := "Duplicate Record";
  ERROR_TITLE_SOCKET := "Issue connecting to database";
  ERROR_TYPE_SOCKET := "Expensify\Core\SocketException";
  HTTP_STATUS_INTERNAL_SERVER_ERROR := 500;
  HTTP_STATUS_BAD_GATEWAY := 502;
  HTTP_STATUS_GATEWAY_TIMEOUT := 504;
  HTTP_STATUS_UNKNOWN_ERROR := 520;
  HTTP_STATUS_TOO_MANY_REQUESTS := 429;
  JSON_CODE_BAD_REQUEST := 400;
  JSON_CODE_EXP_ERROR := 666;
  JSON_CODE_UPDATE_REQUIRED := 426;
|}.

End HttpUtilsSpec.

(** ** Facts about the decoder *)

Lemma startsWith_magic (s : string) :
  startsWith s GZIP_MAGIC_NUMBER = begins_with_gzip_magic (char_codes s).
Proof.
  destruct s as [|a [|b s]]; [reflexivity | |].
  - destruct a as [[] [] [] [] [] [] [] []]; reflexivity.
  - destruct a as [[] [] [] [] [] [] [] []]; try reflexivity.
    destruct b as [[] [] [] [] [] [] [] []]; try reflexivity.
    by destruct s.
Qed.

(** ** Proof tools *)

Ltac msimpl :=
  unfold bind, ret, throw, try_catch, log, emit, lift_opt; simpl.

Ltac mrun :=
  repeat (progress
            (unfold bind, ret, throw, try_catch, log, emit, lift_opt,
               new_promise, enqueue, push_task, Promise_resolve, ext_async,
               ext_call, get_isSingleNewDotEntry;
             simpl)).

Ltac only_logs := repeat (constructor; [reflexivity|]); constructor.

Ltac prefix_of t tr :=
  lazymatch t with
  | tr => constr:(@nil Event)
  | ?e :: ?t' => let r := prefix_of t' tr in constr:(e :: r)
  end.

(** Closes [exists logs, Forall _ logs /\ run = (r, logged logs w)] once the
    run computes. *)
Ltac exists_logs :=
  lazymatch goal with
  | |- exists logs, _ /\ ?lhs = (_, logged logs ?w) =>
      first
        [ let t := eval simpl in (trace (snd lhs)) in
          let l := prefix_of t (trace w) in
          exists l; split; [only_logs | reflexivity]
        | let t := eval cbv in (trace (snd lhs)) in
          let tw := eval cbv in (trace w) in
          let l := prefix_of t tw in
          exists l; split; [only_logs | reflexivity] ]
  end.

Lemma logged_nil (w : World) : logged [] w = w.
Proof. by destruct w. Qed.

Lemma logged_app (l1 l2 : list Event) (w : World) :
  logged l1 (logged l2 w) = logged (l1 ++ l2) w.
Proof. unfold logged, set_trace; simpl. by rewrite app_assoc. Qed.

Lemma bind_ok {A B} (m : M A) (k : A -> M B) (w w' : World) (a : A) :
  m w = (Ok a, w') -> bind m k w = k a w'.
Proof. unfold bind. by intros ->. Qed.

Lemma bind_log {B} (lvl : LogLevel) (msg : string) (k : unit -> M B) (w : World) :
  bind (log lvl msg) k w = k tt (logged [EvLog lvl msg] w).
Proof. reflexivity. Qed.

(** The decoder never raises, returns the reference value and only logs. *)
Lemma parse_run (env : Env) (payload : option JsonValue) (w : World) :
  exists logs,
    Forall (fun e => is_log e = true) logs /\
    parsePushNotificationPayload env payload w
    = (Ok (decoder_reference env payload), logged logs w).
Proof.
  destruct payload as [[| | |s| |]|]; try exists_logs.
  unfold parsePushNotificationPayload, parse_gzipped, parse_plain,
    decoder_reference, gzip_path.
  destruct (atob env s) as [decoded|]; msimpl.
  - rewrite startsWith_magic.
    destruct (begins_with_gzip_magic (char_codes decoded)); msimpl.
    + destruct (pako_inflate env (char_codes decoded)) as [text|]; msimpl.
      * destruct (JSON_parse env text) as [j|]; msimpl; [exists_logs|].
        destruct (JSON_parse env s); exists_logs.
      * destruct (JSON_parse env s); exists_logs.
    + destruct (JSON_parse env s); exists_logs.
  - destruct (JSON_parse env s); exists_logs.
Qed.

Lemma decoder_yields_run (env : Env) (payload r : option JsonValue) (w : World) :
  decoder_yields env payload r ->
  exists logs,
    Forall (fun e => is_log e = true) logs /\
    parsePushNotificationPayload env payload w = (Ok r, logged logs w).
Proof.
  intros Hy. destruct (parse_run env payload w) as (logs & Hlogs & Hrun).
  specialize (Hy w). rewrite Hrun in Hy. simpl in Hy.
  injection Hy as <-. eauto.
Qed.

Lemma decoder_yields_reference (env : Env) (payload : option JsonValue) :
  decoder_yields env payload (decoder_reference env payload).
Proof.
  intros w. destruct (parse_run env payload w) as (logs & _ & ->). reflexivity.
Qed.

(** C3. The Payload Decoder computes the reference definition on every input:
    undefined yields no data, a non-string is returned unchanged, a string
    goes through the gzip path (base64, magic number 0x1F 0x8B, inflate, JSON)
    and, where that fails, is parsed as JSON itself; both failing is no data.
    It never raises and leaves nothing but log entries behind. *)
Theorem parsePushNotificationPayload_refines_reference
    (env : Env) (payload : option JsonValue) (w : World) :
  exists logs,
    Forall (fun e => is_log e = true) logs /\
    parsePushNotificationPayload env payload w
    = (Ok (decoder_reference env payload), logged logs w).
Proof. apply parse_run. Qed.

(** ** Dispatch *)

Ltac all_logs :=
  repeat first
    [ apply Forall_nil_2
    | apply Forall_cons_2; [reflexivity|]
    | apply Forall_app_2
    | assumption ].

Ltac log_steps := cbv beta zeta; repeat (rewrite bind_log; cbv beta zeta).

Ltac finish_logged :=
  log_steps; unfold ret; rewrite ?logged_app;
  (eexists; split; [|reflexivity]); all_logs.

Lemma lookup_action (t : Table) (ev : EventType) (type : string) :
  (default ∅ (t !! ev) : ActionMap) !! type = lookup_handler t ev type.
Proof. unfold lookup_handler. by destruct (t !! ev). Qed.

Lemma dispatch_run (env : Env) (t : Table) (ev : EventType) (n : PushPayload)
    (w : World) (r : option JsonValue) :
  decoder_yields env (assoc "payload" (extras n)) r ->
  exists logs,
    Forall (fun e => is_log e = true) logs /\
    pushNotificationEventCallback env t ev n w
    = match dispatch_target t ev r with
      | Some (h, data) => invoke h data (logged logs w)
      | None =>
          match inherited_target t ev r with
          | Some result => (result, logged logs w)
          | None => (Ok VUndefined, logged logs w)
          end
      end.
Proof.
  intros Hy. unfold pushNotificationEventCallback. log_steps.
  match goal with
  | |- context [bind (parsePushNotificationPayload env ?p) _ ?W] =>
      destruct (decoder_yields_run env p r W Hy) as (logs & Hlogs & Hrun)
  end.
  rewrite (bind_ok _ _ _ _ _ Hrun). log_steps.
  unfold dispatch_target, inherited_target.
  destruct r as [data|]; simpl; [|finish_logged].
  destruct (truthy data) eqn:Hdata; simpl.
  2: { destruct (get_prop data "type"); simpl; finish_logged. }
  destruct (get_prop data "type") as [type|]; simpl; [|finish_logged].
  destruct (truthy type); simpl; [|finish_logged].
  log_steps. rewrite lookup_action.
  destruct (lookup_handler t ev (js_toString type)) as [h|]; simpl; [finish_logged|].
  destruct (Object_prototype (js_toString type)) as [member|]; simpl;
    [|finish_logged].
  log_steps. unfold lift_res. rewrite ?logged_app.
  eexists. split; [|reflexivity]. all_logs.
Qed.

(** C1. When the decoder yields data with a type and a handler is bound for
    (event-kind, type), dispatch runs the body of that handler on the decoded
    data, with the call recorded in the trace after the log entries, and
    ends as that body ends: the value the handler returns, its completion
    signal, is the value dispatch returns, and the world the handler leaves
    is the world dispatch leaves. *)
Theorem dispatch_returns_handler_signal
    (env : Env) (t : Table) (ev : EventType) (n : PushPayload) (w : World)
    (data type : JsonValue) (h : Handler) :
  decoder_yields env (assoc "payload" (extras n)) (Some data) ->
  get_prop data "type" = Some type ->
  truthy type = true ->
  lookup_handler t ev (js_toString type) = Some h ->
  exists logs,
    Forall (fun e => is_log e = true) logs /\
    pushNotificationEventCallback env t ev n w
    = hbody h data (logged (EvInvoke (hname h) data :: logs) w).
Proof.
  intros Hy Htype Htruthy Hh.
  destruct (dispatch_run env t ev n w _ Hy) as (logs & Hlogs & Hrun).
  exists logs. split; [done|]. rewrite Hrun.
  unfold dispatch_target; simpl. rewrite Htype; simpl.
  destruct data; try discriminate. simpl. rewrite Htruthy, Hh. reflexivity.
Qed.

(** When decoding yields no data, or the data has no type, or no handler is
    bound for (event-kind, type) and the type is no name of a member of
    [Object.prototype], dispatch returns undefined at once: no exception, and
    nothing in the trace but log entries, so no handler call. *)
Theorem dispatch_without_handler_is_silent
    (env : Env) (t : Table) (ev : EventType) (n : PushPayload) (w : World)
    (r : option JsonValue) :
  decoder_yields env (assoc "payload" (extras n)) r ->
  truthy_opt r = false
  \/ truthy_opt (r ≫= fun data => get_prop data "type") = false
  \/ (lookup_handler t ev (js_String (r ≫= fun data => get_prop data "type")) = None /\
      Object_prototype (js_String (r ≫= fun data => get_prop data "type")) = None) ->
  exists logs,
    Forall (fun e => is_log e = true) logs /\
    pushNotificationEventCallback env t ev n w = (Ok VUndefined, logged logs w).
Proof.
  intros Hy Hcase.
  destruct (dispatch_run env t ev n w _ Hy) as (logs & Hlogs & Hrun).
  exists logs. split; [done|]. rewrite Hrun.
  replace (dispatch_target t ev r) with (@None (Handler * JsonValue)).
  - replace (inherited_target t ev r) with (@None (Res Value)); [done|].
    unfold inherited_target.
    destruct r as [data|]; simpl in *; [|done].
    destruct (get_prop data "type") as [type|]; simpl in *; [|done].
    destruct Hcase as [-> | [-> | [-> ->]]]; simpl; try done.
    + by rewrite andb_false_r.
    + by destruct (truthy data && truthy type).
  - unfold dispatch_target.
    destruct r as [data|]; simpl in *; [|done].
    destruct (get_prop data "type") as [type|]; simpl in *; [|done].
    destruct Hcase as [-> | [-> | [-> _]]]; simpl; try done.
    + by rewrite andb_false_r.
    + by destruct (truthy data && truthy type).
Qed.

(** C4.  The third case fails on the code when the type is the name of a
    member that every object inherits.  Nothing is bound, and a received
    notification of type "hasOwnProperty" makes dispatch throw a TypeError;
    one of type "toString" makes it return a string.  In both cases the code
    logs that it executes the action callback. *)
Lemma dispatch_calls_inherited_member :
  let notification type :=
    example_notification (Some (JObj [("type", JStr type); ("reportID", JNum 42)])) in
  lookup_handler ∅ PushReceived "hasOwnProperty" = None /\
  fst (pushNotificationEventCallback example_env ∅ PushReceived
         (notification "hasOwnProperty") init_world)
  = Throw JS_TypeError /\
  fst (pushNotificationEventCallback example_env ∅ PushReceived
         (notification "toString") init_world)
  = Ok (VJson (JStr "[object Undefined]")) /\
  head (trace (snd (pushNotificationEventCallback example_env ∅ PushReceived
                      (notification "hasOwnProperty") init_world)))
  = Some (EvLog Info "[PushNotification] Executing action callback").
Proof. repeat split. Qed.

(** ** Witnesses for dispatch *)

Lemma example_data_decodes :
  decoder_yields example_env
    (assoc "payload" (extras (example_notification (Some example_data))))
    (Some example_data).
Proof. intros w. reflexivity. Qed.

Lemma dispatch_returns_handler_signal_witness :
  exists logs,
    Forall (fun e => is_log e = true) logs /\
    pushNotificationEventCallback example_env
      {[ PushReceived := {[ "transaction" := example_handler ]} ]}
      PushReceived (example_notification (Some example_data)) init_world
    = hbody example_handler example_data
        (logged (EvInvoke (hname example_handler) example_data :: logs) init_world).
Proof.
  apply (dispatch_returns_handler_signal example_env _ PushReceived
           (example_notification (Some example_data)) init_world
           example_data (JStr "transaction") example_handler).
  - intros w. reflexivity.
  - reflexivity.
  - reflexivity.
  - reflexivity.
Defined.

Lemma dispatch_without_handler_is_silent_witness :
  exists logs,
    Forall (fun e => is_log e = true) logs /\
    pushNotificationEventCallback example_env
      {[ PushReceived := {[ "transaction" := example_handler ]} ]}
      NotificationResponse (example_notification (Some example_data)) init_world
    = (Ok VUndefined, logged logs init_world).
Proof.
  apply (dispatch_without_handler_is_silent example_env _ NotificationResponse
           (example_notification (Some example_data)) init_world
           (Some example_data)).
  - intros w. reflexivity.
  - right. right. split; reflexivity.
Defined.

(** ** Binding *)

Lemma bind_handler_run (ev : EventType) (type : string) (h : Handler)
    (t : Table) (w : World) :
  exists logs,
    Forall (fun e => is_log e = true) logs /\
    bind_handler ev type h t w
    = (Ok (<[ev := <[type := h]> (default ∅ (t !! ev))]> t), logged logs w).
Proof.
  unfold bind_handler. log_steps.
  destruct (t !! ev) as [actionMap|]; simpl.
  - unfold bind at 1, ret at 1. finish_logged.
  - unfold bind at 1. log_steps. unfold ret at 1. finish_logged.
Qed.

Lemma lookup_handler_insert (ev ev' : EventType) (type type' : string)
    (h : Handler) (t : Table) :
  lookup_handler (<[ev := <[type := h]> (default ∅ (t !! ev))]> t) ev' type'
  = if decide (ev = ev' /\ type = type') then Some h else lookup_handler t ev' type'.
Proof.
  unfold lookup_handler.
  destruct (decide (ev = ev')) as [<-|Hev].
  - rewrite lookup_insert_eq. simpl.
    destruct (decide (type = type')) as [<-|Hty].
    + rewrite lookup_insert_eq. by rewrite decide_True.
    + rewrite lookup_insert_ne by done.
      rewrite decide_False by (intros [_ ?]; done).
      by destruct (t !! ev).
  - rewrite lookup_insert_ne by done.
    by rewrite decide_False by (intros [? _]; done).
Qed.

Lemma bind_all_run (bs : list (EventType * string * Handler)) (t : Table) (w : World) :
  exists t' logs,
    Forall (fun e => is_log e = true) logs /\
    bind_all bs t w = (Ok t', logged logs w) /\
    forall ev type,
      lookup_handler t' ev type = latest_bound bs ev type (lookup_handler t ev type).
Proof.
  revert t w. induction bs as [|[[ev type] h] rest IH]; intros t w.
  - exists t, []. split; [constructor|]. split; [|done].
    simpl. unfold ret. by rewrite logged_nil.
  - destruct (bind_handler_run ev type h t w) as (l1 & Hl1 & Hrun).
    destruct (IH (<[ev := <[type := h]> (default ∅ (t !! ev))]> t) (logged l1 w))
      as (t' & l2 & Hl2 & Hrest & Hlookup).
    exists t', (l2 ++ l1)%list. split; [all_logs|]. split.
    + simpl. rewrite (bind_ok _ _ _ _ _ Hrun), Hrest. by rewrite logged_app.
    + intros ev' type'. rewrite Hlookup. simpl. by rewrite lookup_handler_insert.
Qed.

(** C6. Binding cannot fail and only logs; after any sequence of bind calls
    the table holds, for every (event-kind, type) pair, exactly the handler
    bound to it last (or the one it held before, if the sequence binds none),
    so one bind installs its handler over the previous one and leaves every
    other pair alone; a pair never has two handlers; and dispatch on the
    resulting table calls that latest handler and no other. *)
Theorem bind_installs_latest_handler
    (env : Env) (bs : list (EventType * string * Handler)) (t : Table) (w : World) :
  exists t' logs,
    Forall (fun e => is_log e = true) logs /\
    bind_all bs t w = (Ok t', logged logs w) /\
    (forall ev type,
        lookup_handler t' ev type = latest_bound bs ev type (lookup_handler t ev type)) /\
    (forall ev type h1 h2,
        lookup_handler t' ev type = Some h1 ->
        lookup_handler t' ev type = Some h2 -> h1 = h2) /\
    (forall ev n w0 data type h,
        decoder_yields env (assoc "payload" (extras n)) (Some data) ->
        get_prop data "type" = Some type ->
        truthy type = true ->
        latest_bound bs ev (js_toString type) (lookup_handler t ev (js_toString type))
        = Some h ->
        exists logs0,
          Forall (fun e => is_log e = true) logs0 /\
          pushNotificationEventCallback env t' ev n w0 = invoke h data (logged logs0 w0)).
Proof.
  destruct (bind_all_run bs t w) as (t' & logs & Hlogs & Hrun & Hlookup).
  exists t', logs. repeat split; try done; [congruence|].
  intros ev n w0 data type h Hy Htype Htruthy Hlatest.
  destruct (dispatch_run env t' ev n w0 _ Hy) as (logs0 & Hlogs0 & Hdispatch).
  exists logs0. split; [done|]. rewrite Hdispatch.
  unfold dispatch_target; simpl. rewrite Htype; simpl.
  destruct data; try discriminate. simpl.
  by rewrite Htruthy, Hlookup, Hlatest.
Qed.

(** Rebinding: the second handler replaces the first, and it is the one that
    dispatch calls. *)
Example rebinding_replaces :
  let H1 := mkHandler "H1" (fun _ => Promise_resolve VUndefined) in
  let H2 := mkHandler "H2" (fun _ => Promise_resolve VUndefined) in
  let t := default ∅ (match fst (bind_all [(PushReceived, "transaction", H1);
                                           (PushReceived, "transaction", H2)] ∅ init_world)
                      with Ok t => Some t | Throw _ => None end) in
  (hname <$> lookup_handler t PushReceived "transaction") = Some "H2" /\
  filter (fun e => is_invoke e = true)
    (trace (snd (pushNotificationEventCallback example_env t PushReceived
                   (example_notification (Some example_data)) init_world)))
  = [EvInvoke "H2" example_data].
Proof. split; vm_compute; reflexivity. Qed.

(** ** shouldShowPushNotification *)

(** C10. A payload that does not decode is shown, and so is every decoded
    payload whose type is "transaction": the filter returns true, without
    raising and without consulting the report-action collaborators. *)
Theorem shouldShowPushNotification_undecoded_or_transaction
    (env : Env) (pushPayload : PushPayload) (w : World) (r : option JsonValue) :
  decoder_yields env (assoc "payload" (extras pushPayload)) r ->
  r = None
  \/ (exists data, r = Some data /\ get_prop data "type" = Some (JStr "transaction")) ->
  exists logs,
    Forall (fun e => is_log e = true) logs /\
    shouldShowPushNotification env pushPayload w = (Ok true, logged logs w).
Proof.
  intros Hy Hcase. unfold shouldShowPushNotification. log_steps.
  match goal with
  | |- context [bind (parsePushNotificationPayload env ?p) _ ?W] =>
      destruct (decoder_yields_run env p r W Hy) as (logs & Hlogs & Hrun)
  end.
  rewrite (bind_ok _ _ _ _ _ Hrun). log_steps.
  destruct Hcase as [-> | (data & -> & Htype)]; simpl; [finish_logged|].
  destruct data; try discriminate. simpl in *. log_steps.
  rewrite Htype. unfold bind at 1. log_steps. unfold ret at 1. finish_logged.
Qed.

Lemma shouldShowPushNotification_undecoded_or_transaction_witness :
  exists logs,
    Forall (fun e => is_log e = true) logs /\
    shouldShowPushNotification example_env
      (example_notification (Some (JStr "not json"))) init_world
    = (Ok true, logged logs init_world).
Proof.
  apply (shouldShowPushNotification_undecoded_or_transaction example_env
           (example_notification (Some (JStr "not json"))) init_world None).
  - intros w. reflexivity.
  - left. reflexivity.
Defined.

(** ** The Update Applier *)

Lemma promise_state_alloc (h : list Cell) (st : PState) (q : list Job)
    (q' : list Task) (t : list Event) (single : option bool) :
  promise_state (mkWorld (h ++ [mkCell st []]) q q' t single) (length h) = Some st.
Proof.
  unfold promise_state. simpl. by rewrite list_lookup_middle.
Qed.

Lemma promise_state_new (w : World) (st : PState) :
  promise_state (set_heap (heap w ++ [mkCell st []]) w) (length (heap w)) = Some st.
Proof. apply promise_state_alloc. Qed.

Lemma Promise_resolve_undefined (w : World) :
  Promise_resolve VUndefined w
  = (Ok (VPromise (length (heap w))), with_resolved_promise w).
Proof. reflexivity. Qed.

Lemma with_resolved_promise_logged (l : list Event) (w : World) :
  with_resolved_promise (logged l w) = logged l (with_resolved_promise w).
Proof. reflexivity. Qed.

(** C8. Without the host bridge, or with a bridge that has no finish
    function, the finish step does not throw: it logs, sends no signal, and
    returns a new promise that is already fulfilled. *)
Theorem safelyFinishBackgroundProcessing_without_bridge
    (env : Env) (context : string) (w : World) :
  PushNotificationBridge env = None
  \/ PushNotificationBridge env = Some (mkBridge false) ->
  exists logs,
    Forall (fun e => is_log e = true) logs /\
    safelyFinishBackgroundProcessing env context w
    = (Ok (VPromise (length (heap w))), logged logs (with_resolved_promise w)) /\
    fulfilled_with (logged logs (with_resolved_promise w))
      (VPromise (length (heap w))) VUndefined.
Proof.
  intros Hbridge.
  assert (Hp : forall logs,
             fulfilled_with (logged logs (with_resolved_promise w))
               (VPromise (length (heap w))) VUndefined).
  { intros logs. exists (length (heap w)). split; [done|]. apply promise_state_new. }
  unfold safelyFinishBackgroundProcessing.
  destruct Hbridge as [-> | ->]; destruct (DEV env); mrun;
    first [ eexists [_; _]; split; [|split; [reflexivity|apply Hp]]
          | eexists [_]; split; [|split; [reflexivity|apply Hp]] ];
    only_logs.
Qed.

Lemma safelyFinishBackgroundProcessing_without_bridge_witness :
  exists logs,
    Forall (fun e => is_log e = true) logs /\
    safelyFinishBackgroundProcessing example_env_no_bridge "success" init_world
    = (Ok (VPromise 0), logged logs (with_resolved_promise init_world)) /\
    fulfilled_with (logged logs (with_resolved_promise init_world)) (VPromise 0) VUndefined.
Proof.
  apply (safelyFinishBackgroundProcessing_without_bridge
           example_env_no_bridge "success" init_world).
  left. reflexivity.
Defined.

Lemma quiescent_queues (env : Env) (w : World) :
  quiescent env w <-> microtasks w = [] /\ macrotasks w = [].
Proof.
  unfold quiescent, step.
  destruct (microtasks w), (macrotasks w); split; try done; intros [? ?]; done.
Qed.

Lemma run_quiescent (env : Env) (w : World) (n : nat) :
  quiescent env w -> run env n w = w.
Proof. intros Hq. destruct n; simpl; [done|]. by rewrite Hq. Qed.

Lemma applyOnyxData_missing_run (env : Env) (data : JsonValue) (w : World) :
  data <> JNull ->
  missing_required_field data ->
  exists logs,
    Forall (fun e => is_log e = true) logs /\
    applyOnyxData env data w
    = (Ok (VPromise (length (heap w))), logged logs (with_resolved_promise w)).
Proof.
  intros Hnn Hmiss.
  unfold missing_required_field, hasPendingOnyxUpdates_of, lacks in Hmiss.
  unfold applyOnyxData.
  destruct data as [| b | z | s | items | fields]; [done|..]; cbv zeta;
    simpl in Hmiss |- *; try (mrun; eexists [_; _]; (split; [|reflexivity]); only_logs).
  destruct (truthy (default (JBool false) (assoc "hasPendingOnyxUpdates" fields))).
  - rewrite Hmiss. mrun. eexists [_; _]; (split; [|reflexivity]); only_logs.
  - assert (negb (truthy_opt (assoc "lastUpdateID" fields))
            || negb (truthy_opt (assoc "onyxData" fields))
            || negb (truthy_opt (assoc "previousUpdateID" fields)) = true) as ->.
    { destruct Hmiss as [-> | [-> | ->]]; simpl;
        rewrite ?orb_true_r; reflexivity. }
    mrun. eexists [_; _]; (split; [|reflexivity]); only_logs.
Qed.

(** C5. On an input with a missing required field the Update Applier returns
    a promise that is already fulfilled; it only logs, schedules nothing and
    so, however long the event loop runs afterwards, never calls the
    reliable-update-application collaborator. *)
Theorem applyOnyxData_missing_field_skips_collaborator
    (env : Env) (data : JsonValue) (w : World) :
  data <> JNull ->
  missing_required_field data ->
  exists logs,
    Forall (fun e => is_log e = true) logs /\
    applyOnyxData env data w
    = (Ok (VPromise (length (heap w))), logged logs (with_resolved_promise w)) /\
    fulfilled_with (logged logs (with_resolved_promise w))
      (VPromise (length (heap w))) VUndefined /\
    (quiescent env w ->
     forall n, run env n (logged logs (with_resolved_promise w))
               = logged logs (with_resolved_promise w)).
Proof.
  intros Hnn Hmiss.
  assert (Hp : forall logs,
             fulfilled_with (logged logs (with_resolved_promise w))
               (VPromise (length (heap w))) VUndefined).
  { intros logs. exists (length (heap w)). split; [done|]. apply promise_state_new. }
  assert (Hq : forall logs,
             quiescent env w ->
             forall n, run env n (logged logs (with_resolved_promise w))
                       = logged logs (with_resolved_promise w)).
  { intros logs Hq n. apply run_quiescent.
    apply quiescent_queues in Hq. by apply quiescent_queues. }
  destruct (applyOnyxData_missing_run env data w Hnn Hmiss) as (logs & Hlogs & Hrun).
  exists logs. eauto.
Qed.

Lemma applyOnyxData_missing_field_skips_collaborator_witness :
  let data := JObj [("type", JStr "reportComment"); ("reportID", JNum 7);
                    ("hasPendingOnyxUpdates", JBool true)] in
  exists logs,
    Forall (fun e => is_log e = true) logs /\
    applyOnyxData example_env data init_world
    = (Ok (VPromise 0), logged logs (with_resolved_promise init_world)) /\
    fulfilled_with (logged logs (with_resolved_promise init_world)) (VPromise 0) VUndefined /\
    (quiescent example_env init_world ->
     forall n, run example_env n (logged logs (with_resolved_promise init_world))
               = logged logs (with_resolved_promise init_world)).
Proof.
  intros data.
  apply (applyOnyxData_missing_field_skips_collaborator example_env data init_world).
  - discriminate.
  - reflexivity.
Defined.

(** The inline path without [previousUpdateID]. *)
Example applyOnyxData_without_previousUpdateID :
  let data := JObj [("type", JStr "reportComment"); ("reportID", JNum 7);
                    ("lastUpdateID", JNum 100); ("onyxData", JArr [])] in
  let w := snd (applyOnyxData example_env data init_world) in
  fst (applyOnyxData example_env data init_world) = Ok (VPromise 0) /\
  promise_state w 0 = Some (Settled (Fulfilled VUndefined)) /\
  count is_collaborator_call (trace (run example_env 10 w)) = 0%nat.
Proof. repeat split. Qed.

(** ** Settled promises stay settled *)

Lemma heap_le_refl (h : list Cell) : heap_le h h.
Proof. by intros p s. Qed.

Lemma heap_le_trans (h1 h2 h3 : list Cell) :
  heap_le h1 h2 -> heap_le h2 h3 -> heap_le h1 h3.
Proof. intros H12 H23 p s Hp. by apply H23, H12. Qed.

Lemma heap_le_app (h : list Cell) (c : Cell) : heap_le h (h ++ [c]).
Proof.
  intros p s Hp. destruct (h !! p) as [x|] eqn:Hx; [|done].
  by rewrite (lookup_app_l_Some _ _ _ _ Hx).
Qed.

Lemma heap_le_insert_pending (h : list Cell) (p : nat) (rs : list Reaction) (c : Cell) :
  h !! p = Some (mkCell Pending rs) -> heap_le h (<[p := c]> h).
Proof.
  intros Hp q s Hq. destruct (decide (p = q)) as [<-|Hne].
  - rewrite Hp in Hq. discriminate.
  - by rewrite list_lookup_insert_ne.
Qed.

Section KeepsSettled.

Context (env : Env).

Lemma ks_ret {A} (a : A) : keeps_settled (ret a).
Proof. intros w. apply heap_le_refl. Qed.

Lemma ks_throw {A} (e : Value) : keeps_settled (@throw A e).
Proof. intros w. apply heap_le_refl. Qed.

Lemma ks_bind {A B} (m : M A) (k : A -> M B) :
  keeps_settled m -> (forall a, keeps_settled (k a)) -> keeps_settled (bind m k).
Proof.
  intros Hm Hk w. unfold bind. specialize (Hm w).
  destruct (m w) as [[a|e] w1]; simpl in *; [|done].
  eapply heap_le_trans; [done|apply Hk].
Qed.

Lemma ks_try_catch {A} (m : M A) (handler : Value -> M A) :
  keeps_settled m -> (forall e, keeps_settled (handler e)) ->
  keeps_settled (try_catch m handler).
Proof.
  intros Hm Hh w. unfold try_catch. specialize (Hm w).
  destruct (m w) as [[a|e] w1]; simpl in *; [done|].
  eapply heap_le_trans; [done|apply Hh].
Qed.

Lemma ks_emit (e : Event) : keeps_settled (emit e).
Proof. intros w. apply heap_le_refl. Qed.

Lemma ks_log (lvl : LogLevel) (msg : string) : keeps_settled (log lvl msg).
Proof. apply ks_emit. Qed.

Lemma ks_lift_opt {A} (o : option A) (e : Value) : keeps_settled (lift_opt o e).
Proof. destruct o; [apply ks_ret|apply ks_throw]. Qed.

Lemma ks_ext_call {A} (c : ExtCall) (answer : list Event -> Res A) :
  keeps_settled (ext_call c answer).
Proof. intros w. unfold ext_call. destruct (answer (trace w)); apply heap_le_refl. Qed.

Lemma ks_get_isSingleNewDotEntry : keeps_settled get_isSingleNewDotEntry.
Proof. intros w. apply heap_le_refl. Qed.

Lemma ks_new_promise (st : PState) : keeps_settled (new_promise st).
Proof. intros w. apply heap_le_app. Qed.

Lemma ks_enqueue (j : Job) : keeps_settled (enqueue j).
Proof. intros w. apply heap_le_refl. Qed.

Lemma ks_push_task (t : Task) : keeps_settled (push_task t).
Proof. intros w. apply heap_le_refl. Qed.

Lemma ks_settle (p : nat) (s : Settlement) : keeps_settled (settle p s).
Proof.
  intros w. unfold settle.
  destruct (heap w !! p) as [[[|s'] rs]|] eqn:Hp; simpl; try apply heap_le_refl.
  by eapply heap_le_insert_pending.
Qed.

Lemma ks_resolve (p : nat) (v : Value) : keeps_settled (resolve p v).
Proof.
  unfold resolve. destruct v; try apply ks_settle.
  destruct (Nat.eqb _ _); [apply ks_settle|apply ks_enqueue].
Qed.

Lemma ks_subscribe (p : nat) (r : Reaction) : keeps_settled (subscribe p r).
Proof.
  intros w. unfold subscribe.
  destruct (heap w !! p) as [[[|s'] rs]|] eqn:Hp; simpl; try apply heap_le_refl.
  by eapply heap_le_insert_pending.
Qed.

Create HintDb ks.
#[local] Hint Resolve ks_ret ks_throw ks_emit ks_log ks_lift_opt ks_ext_call
  ks_get_isSingleNewDotEntry ks_new_promise ks_enqueue ks_push_task ks_settle
  ks_resolve ks_subscribe : ks.

Ltac ks :=
  repeat first
    [ solve [auto with ks]
    | apply ks_bind; [|intros ?]
    | apply ks_try_catch; [|intros ?]
    | match goal with
      | |- keeps_settled (match ?x with _ => _ end) => destruct x
      end ].

Lemma ks_then (p : nat) (f r : option Callback) : keeps_settled (then_ p f r).
Proof. unfold then_. ks. Qed.

Lemma ks_catch (p : nat) (r : Callback) : keeps_settled (catch_ p r).
Proof. apply ks_then. Qed.

Lemma ks_Promise_resolve (v : Value) : keeps_settled (Promise_resolve v).
Proof. unfold Promise_resolve. ks. Qed.

Lemma ks_ext_async (c : ExtCall) (o : Outcome) : keeps_settled (ext_async c o).
Proof. unfold ext_async. ks. Qed.

#[local] Hint Resolve ks_then ks_catch ks_Promise_resolve ks_ext_async : ks.

Lemma ks_safelyFinishBackgroundProcessing (context : string) :
  keeps_settled (safelyFinishBackgroundProcessing env context).
Proof. unfold safelyFinishBackgroundProcessing. ks. Qed.

Lemma ks_modalClosed (reportID : option JsonValue) :
  keeps_settled (navigateToReport_modalClosed env reportID).
Proof. unfold navigateToReport_modalClosed. ks. Qed.

#[local] Hint Resolve ks_safelyFinishBackgroundProcessing ks_modalClosed : ks.

Lemma ks_apply_callback (cb : Callback) (arg : Value) :
  keeps_settled (apply_callback env cb arg).
Proof.
  destruct cb; simpl;
    unfold resolveLastUpdateID, applyOnyxData_apply, applyOnyxData_success,
      applyOnyxData_error, navigateToReport_routesReady, register_gotNamedUser,
      register_permissionResult;
    ks.
Qed.

Lemma ks_run_job (j : Job) : keeps_settled (run_job env j).
Proof.
  destruct j as [[onF onR d|target] s|target thenable]; simpl.
  - destruct s as [v|e]; simpl.
    + destruct onF as [cb|]; [|apply ks_resolve].
      intros w. pose proof (ks_apply_callback cb v w) as Hcb.
      destruct (apply_callback env cb v w) as [[x|e] w1]; simpl in *;
        (eapply heap_le_trans; [exact Hcb|]); [apply ks_resolve|apply ks_settle].
    + destruct onR as [cb|]; [|apply ks_settle].
      intros w. pose proof (ks_apply_callback cb e w) as Hcb.
      destruct (apply_callback env cb e w) as [[x|e'] w1]; simpl in *;
        (eapply heap_le_trans; [exact Hcb|]); [apply ks_resolve|apply ks_settle].
  - destruct s; [apply ks_resolve|apply ks_settle].
  - apply ks_subscribe.
Qed.

Lemma ks_run_task (t : Task) : keeps_settled (run_task env t).
Proof.
  destruct t; simpl; [apply ks_settle|].
  apply ks_try_catch; [|intros; apply ks_emit].
  apply ks_bind; [apply ks_apply_callback|intros; apply ks_ret].
Qed.

Lemma step_keeps_settled (w w' : World) :
  step env w = Some w' -> heap_le (heap w) (heap w').
Proof.
  unfold step. destruct (microtasks w) as [|j rest].
  - destruct (macrotasks w) as [|t rest]; [done|].
    intros [= <-]. apply (ks_run_task t (set_macrotasks rest w)).
  - intros [= <-]. apply (ks_run_job j (set_microtasks rest w)).
Qed.

Lemma run_keeps_settled (n : nat) (w : World) : heap_le (heap w) (heap (run env n w)).
Proof.
  revert w. induction n as [|n IH]; intros w; simpl; [apply heap_le_refl|].
  destruct (step env w) as [w'|] eqn:Hstep; [|apply heap_le_refl].
  eapply heap_le_trans; [by apply step_keeps_settled|apply IH].
Qed.

End KeepsSettled.

(** ** The Report Navigator *)

(** C9. The Report Navigator only logs, asks the navigation collaborator to
    wait for the routes, registers its continuation, and returns a new promise
    that is already fulfilled: at that moment neither the modal has been closed
    nor a navigation step run.  Whatever happens afterwards (navigation
    succeeding, throwing, or never starting) the returned promise stays
    fulfilled with undefined, so it can never be rejected. *)
Theorem navigateToReport_returns_resolved_promise
    (env : Env) (data : JsonValue) (w : World) :
  data <> JNull ->
  exists p w',
    navigateToReport env data w = (Ok (VPromise p), w') /\
    promise_state w' p = Some (Settled (Fulfilled VUndefined)) /\
    trace w'
    = EvCall Navigation_waitForProtectedRoutes
      :: EvLog Info "[PushNotification] Starting navigation to report from push notification"
      :: trace w /\
    forall n, promise_state (run env n w') p = Some (Settled (Fulfilled VUndefined)).
Proof.
  intros Hnn.
  assert (Hstable : forall p w',
             promise_state w' p = Some (Settled (Fulfilled VUndefined)) ->
             forall n, promise_state (run env n w') p
                       = Some (Settled (Fulfilled VUndefined))).
  { intros p w' Hp n. by apply (run_keeps_settled env n w'). }
  assert (Hlook : forall (c0 c1 : Cell),
             ((heap w ++ [c0]) ++ [c1]) !! length (heap w) = Some c0).
  { intros c0 c1. rewrite <- app_assoc. simpl. by apply list_lookup_middle. }
  unfold navigateToReport.
  destruct data; [done|..];
    destruct (waitForProtectedRoutes env);
    mrun; unfold then_, subscribe; mrun; rewrite Hlook; mrun;
    (eexists _, _; split; [reflexivity|]);
    (split; [apply promise_state_alloc|]);
    (split; [reflexivity|]);
    apply Hstable, promise_state_alloc.
Qed.

Lemma navigateToReport_returns_resolved_promise_witness :
  exists p w',
    navigateToReport example_env example_data init_world = (Ok (VPromise p), w') /\
    promise_state w' p = Some (Settled (Fulfilled VUndefined)) /\
    trace w'
    = EvCall Navigation_waitForProtectedRoutes
      :: EvLog Info "[PushNotification] Starting navigation to report from push notification"
      :: trace init_world /\
    forall n, promise_state (run example_env n w') p = Some (Settled (Fulfilled VUndefined)).
Proof.
  apply (navigateToReport_returns_resolved_promise example_env example_data init_world).
  discriminate.
Defined.

(** ** Running to rest *)

Ltac prog :=
  repeat (progress
            (unfold register, register_gotNamedUser, register_permissionResult,
               applyOnyxData_chain, applyOnyxData_apply, applyOnyxData_success,
               applyOnyxData_error, safelyFinishBackgroundProcessing,
               getLastUpdateIDAppliedToClient, resolveLastUpdateID,
               logMissingOnyxDataInfo, then_, catch_, subscribe, settle, resolve,
               bind, ret, throw, try_catch, log, emit, lift_opt,
               new_promise, enqueue, push_task, Promise_resolve, ext_async,
               ext_call, get_isSingleNewDotEntry;
             simpl)).

(** Promises made on top of a heap [h] are numbered from [length h]. *)
Lemma lookup_base {A} (h l : list A) : (h ++ l) !! length h = l !! 0%nat.
Proof. rewrite lookup_app_r by lia. by rewrite Nat.sub_diag. Qed.

Lemma lookup_shift {A} (h l : list A) (k : nat) :
  (h ++ l) !! (length h + k)%nat = l !! k.
Proof. rewrite lookup_app_r by lia. f_equal. lia. Qed.

Lemma insert_base {A} (h l : list A) (c : A) :
  <[length h := c]> (h ++ l) = h ++ <[0%nat := c]> l.
Proof. rewrite insert_app_r_alt by lia. by rewrite Nat.sub_diag. Qed.

Lemma insert_shift {A} (h l : list A) (k : nat) (c : A) :
  <[(length h + k)%nat := c]> (h ++ l) = h ++ <[k := c]> l.
Proof. rewrite insert_app_r_alt by lia. f_equal. f_equal. lia. Qed.

Lemma length_base {A} (h : list A) (x : A) (l : list A) :
  length (h ++ x :: l) = (length h + S (length l))%nat.
Proof. by rewrite length_app. Qed.

Lemma eqb_shift (n a b : nat) : Nat.eqb (n + a) (n + b) = Nat.eqb a b.
Proof. destruct (Nat.eqb_spec a b), (Nat.eqb_spec (n + a) (n + b)); try done; lia. Qed.

Ltac heap_norm :=
  repeat (progress
            (rewrite <- ?app_assoc, ?length_base, ?lookup_base, ?lookup_shift,
               ?insert_base, ?insert_shift, ?eqb_shift;
             simpl)).

Ltac exec := repeat (progress (prog; heap_norm)).

(** Closes [exists evs, trace = evs ++ t /\ ...] on a computed trace. *)
Ltac exists_events :=
  lazymatch goal with
  | |- exists evs, ?tr = evs ++ ?t /\ _ =>
      let l := prefix_of tr t in
      exists l; split; reflexivity
  | |- exists evs, _ /\ ?tr = evs ++ ?t /\ _ =>
      let l := prefix_of tr t in
      exists l; split; [|split]; reflexivity
  end.

Lemma run_past_rest (env : Env) (k n : nat) (w : World) :
  quiescent env (run env k w) -> (k <= n)%nat -> run env n w = run env k w.
Proof.
  revert n w. induction k as [|k IH]; intros n w Hq Hle; simpl in *.
  - by apply run_quiescent.
  - destruct n as [|n]; [lia|]. simpl.
    destruct (step env w) as [w'|]; [|done].
    apply IH; [done|lia].
Qed.

Lemma count_logs (f : Event -> bool) (logs : list Event) :
  (forall lvl msg, f (EvLog lvl msg) = false) ->
  Forall (fun e => is_log e = true) logs ->
  count f logs = 0%nat.
Proof.
  intros Hf. unfold count. induction 1 as [|e l He _ IH]; [done|].
  destruct e; try discriminate.
  rewrite filter_cons_False; [done|]. by rewrite Hf.
Qed.

(** ** Registration *)

(** C7. When the identity the SDK reports equals the desired ID as a string,
    a run of Register from an idle loop comes to rest after three turns, and
    at no moment of the run has a permission request or an identify call been
    issued. *)
Theorem register_same_identity_is_noop
    (env : Env) (notificationID : NotificationID) (h : list Cell)
    (t : list Event) (single : option bool) :
  getNamedUserId env
  = Resolves (Some (JStr (NotificationID_toString notificationID))) ->
  let w0 := snd (register env notificationID (idle_world h t single)) in
  quiescent env (run env 3 w0) /\
  forall n, exists evs,
    trace (run env n w0) = evs ++ t /\
    count is_identify_or_permission evs = 0%nat.
Proof.
  intros Hid w0. subst w0. unfold idle_world.
  assert (Hrest :
    quiescent env (run env 3 (snd (register env notificationID (mkWorld h [] [] t single)))) /\
    exists evs,
      trace (run env 3 (snd (register env notificationID (mkWorld h [] [] t single))))
      = evs ++ t /\
      count is_identify_or_permission evs = 0%nat).
  { unfold register. rewrite Hid. exec. rewrite String.eqb_refl. exec.
    split; [reflexivity|]. exists_events. }
  destruct Hrest as (Hq & Hevs). split; [done|].
  intros n. destruct (decide (3 <= n)%nat) as [Hle|Hlt].
  - by rewrite (run_past_rest env 3 n _ Hq Hle).
  - destruct n as [|[|[|n]]]; [| | |lia];
      unfold register; rewrite Hid; exec; rewrite ?String.eqb_refl; exec;
      exists_events.
Qed.

Lemma register_same_identity_is_noop_witness :
  let w0 := snd (register example_env (IDNum 42) (idle_world [] [] None)) in
  quiescent example_env (run example_env 3 w0) /\
  forall n, exists evs,
    trace (run example_env n w0) = evs ++ [] /\
    count is_identify_or_permission evs = 0%nat.
Proof.
  apply (register_same_identity_is_noop example_env (IDNum 42) [] [] None).
  reflexivity.
Defined.

(** With another identity registered, Register asks for permission and
    identifies the device. *)
Example register_other_identity :
  let w0 := snd (register example_env (IDNum 43) init_world) in
  filter (fun e => is_identify_or_permission e = true) (trace (run example_env 10 w0))
  = [EvCall (Airship_contact_identify "43"); EvCall Airship_push_enableUserNotifications].
Proof. reflexivity. Qed.

(** ** The specification's test cases, on the example environment *)

Example decode_object_unchanged :
  fst (parsePushNotificationPayload example_env (Some example_data) init_world)
  = Ok (Some example_data).
Proof. reflexivity. Qed.

Example decode_undefined :
  fst (parsePushNotificationPayload example_env None init_world) = Ok None.
Proof. reflexivity. Qed.

Example decode_gzipped :
  fst (parsePushNotificationPayload example_env (Some (JStr "H4sIAAAA")) init_world)
  = Ok (Some example_update).
Proof. reflexivity. Qed.

Example decode_base64_without_magic_falls_through :
  fst (parsePushNotificationPayload example_env (Some (JStr "1234")) init_world)
  = Ok (Some (JNum 1234)).
Proof. reflexivity. Qed.

Example decode_garbage :
  fst (parsePushNotificationPayload example_env (Some (JStr "not json")) init_world)
  = Ok None.
Proof. reflexivity. Qed.

(** End to end: a gzipped report-comment payload, received with the Update
    Applier bound, makes one call to the collaborator (with update IDs 100 and
    99) and sends one finish signal. *)
Example end_to_end :
  let applier := mkHandler "applyOnyxData" (applyOnyxData example_env) in
  let t := default ∅ (match fst (onReceived "reportComment" applier ∅ init_world) with
                      | Ok t => Some t
                      | Throw _ => None
                      end) in
  let w := snd (pushNotificationEventCallback example_env t PushReceived
                  (example_notification (Some (JStr "H4sIAAAA"))) init_world) in
  let w' := run example_env 20 w in
  quiescent example_env w' /\
  filter (fun e => is_collaborator_call e = true) (trace w')
  = [EvCall (Call_applyOnyxUpdatesReliably
               {| utype := AIRSHIP;
                  lastUpdateID := JNum 100;
                  previousUpdateID := Some (JNum 99);
                  shouldFetchPendingUpdates := None;
                  updates := [ {| eventType := ""; data := JArr [] |} ] |}
               true (VJson (JNum 99)))] /\
  count is_finish_signal (trace w') = 1%nat.
Proof. repeat split. Qed.

(** The collaborator rejects: the signal is still sent once, from the error
    path. *)
Example finish_signal_on_failure :
  let w := snd (applyOnyxData example_env_navigation_fails example_update init_world) in
  let w' := run example_env_navigation_fails 20 w in
  quiescent example_env_navigation_fails w' /\
  count is_finish_signal (trace w') = 1%nat /\
  head (trace w') = Some (EvCall Bridge_finishBackgroundProcessing) /\
  trace w' !! 2%nat = Some (EvLog Alert "[PushNotification] Error applying Onyx updates").
Proof. repeat split. Qed.

(** Navigation throws after the modal has closed: the failure is logged, and
    the promise that [navigateToReport] returned is as it was. *)
Example navigation_failure_is_not_reported :
  let r := navigateToReport example_env_navigation_fails example_data init_world in
  let w' := run example_env_navigation_fails 20 (snd r) in
  fst r = Ok (VPromise 2) /\
  quiescent example_env_navigation_fails w' /\
  head (trace w') = Some (EvLog Alert "[PushNotification] Navigation failed") /\
  promise_state (snd r) 2 = Some (Settled (Fulfilled VUndefined)) /\
  promise_state w' 2 = Some (Settled (Fulfilled VUndefined)).
Proof. repeat split. Qed.

(** * More of the code: properties *)

(** ** A calculus for computations that only add to the trace *)

Lemma post_ret {A} (a : A) (w : World) (Q : Res A -> list Event -> Prop) :
  Q (Ok a) [] -> post (ret a) w Q.
Proof. intros HQ. exists (Ok a), []. by rewrite logged_nil. Qed.

Lemma post_throw {A} (e : Value) (w : World) (Q : Res A -> list Event -> Prop) :
  Q (Throw e) [] -> post (throw e) w Q.
Proof. intros HQ. exists (Throw e), []. by rewrite logged_nil. Qed.

Lemma post_emit (e : Event) (w : World) (Q : Res unit -> list Event -> Prop) :
  Q (Ok tt) [e] -> post (emit e) w Q.
Proof. intros HQ. by exists (Ok tt), [e]. Qed.

Lemma post_log (lvl : LogLevel) (msg : string) (w : World)
    (Q : Res unit -> list Event -> Prop) :
  Q (Ok tt) [EvLog lvl msg] -> post (log lvl msg) w Q.
Proof. apply post_emit. Qed.

Lemma post_get_isSingleNewDotEntry (w : World)
    (Q : Res (option bool) -> list Event -> Prop) :
  Q (Ok (isSingleNewDotEntry w)) [] -> post get_isSingleNewDotEntry w Q.
Proof. intros HQ. exists (Ok (isSingleNewDotEntry w)), []. by rewrite logged_nil. Qed.

Lemma post_ext_call {A} (c : ExtCall) (answer : list Event -> Res A) (w : World)
    (Q : Res A -> list Event -> Prop) :
  Q (answer (trace w)) [EvCall c] -> post (ext_call c answer) w Q.
Proof.
  intros HQ. exists (answer (trace w)), [EvCall c]. split; [|done].
  unfold ext_call. by destruct (answer (trace w)).
Qed.

Lemma post_bind {A B} (m : M A) (k : A -> M B) (w : World)
    (Q : Res B -> list Event -> Prop) :
  post m w (fun r evs =>
              match r with
              | Ok a => post (k a) (logged evs w) (fun r' evs' => Q r' (evs' ++ evs))
              | Throw e => Q (Throw e) evs
              end) ->
  post (bind m k) w Q.
Proof.
  intros (r & evs & Hm & HQ). unfold post, bind. rewrite Hm.
  destruct r as [a|e]; [|by exists (Throw e), evs].
  destruct HQ as (r' & evs' & Hk & HQ). exists r', (evs' ++ evs).
  by rewrite Hk, logged_app.
Qed.

Lemma post_try_catch {A} (m : M A) (handler : Value -> M A) (w : World)
    (Q : Res A -> list Event -> Prop) :
  post m w (fun r evs =>
              match r with
              | Ok a => Q (Ok a) evs
              | Throw e =>
                  post (handler e) (logged evs w) (fun r' evs' => Q r' (evs' ++ evs))
              end) ->
  post (try_catch m handler) w Q.
Proof.
  intros (r & evs & Hm & HQ). unfold post, try_catch. rewrite Hm.
  destruct r as [a|e]; [by exists (Ok a), evs|].
  destruct HQ as (r' & evs' & Hk & HQ). exists r', (evs' ++ evs).
  by rewrite Hk, logged_app.
Qed.

Lemma post_weaken {A} (m : M A) (w : World) (Q Q' : Res A -> list Event -> Prop) :
  (forall r evs, Q r evs -> Q' r evs) -> post m w Q -> post m w Q'.
Proof. intros HQ (r & evs & Hm & Hr). exists r, evs. auto. Qed.

Ltac wp_step :=
  first
    [ apply post_bind | apply post_try_catch | apply post_ret | apply post_throw
    | apply post_log | apply post_emit | apply post_get_isSingleNewDotEntry
    | apply post_ext_call ].

(** Walks through a computation, splitting on every answer of a collaborator
    and on every test. *)
Ltac wp :=
  repeat first
    [ wp_step
    | progress cbv beta
    | match goal with
      | |- match ?x with Ok _ => _ | Throw _ => _ end => destruct x eqn:?
      | |- post (if ?b then _ else _) _ _ => destruct b eqn:?
      | |- post (match ?x with Ok _ => _ | Throw _ => _ end) _ _ => destruct x eqn:?
      end ].

(** Discharges a branch in which a collaborator that never throws threw, or
    one that always throws answered. *)
Ltac wrong_answer :=
  exfalso;
  match goal with
  | H : never_throws ?f, E : ?f ?t = Throw _ |- _ =>
      destruct (H t) as [? ?]; congruence
  | H : forall r, never_throws (?f r), E : ?f ?r ?t = Throw _ |- _ =>
      destruct (H r t) as [? ?]; congruence
  | H : always_throws ?f, E : ?f ?t = Ok _ |- _ =>
      destruct (H t) as [? ?]; congruence
  | H : forall r, always_throws (?f r), E : ?f ?r ?t = Ok _ |- _ =>
      destruct (H r t) as [? ?]; congruence
  end.

(** ** The callback given to Modal.close *)

(** X1. Whatever the navigation collaborator does, and any of its calls may
    throw, the callback returns undefined: no exception leaves it, and it
    changes nothing but the trace. *)
Theorem navigateToReport_modalClosed_never_throws
    (env : Env) (reportID : option JsonValue) (w : World) :
  exists evs,
    navigateToReport_modalClosed env reportID w = (Ok VUndefined, logged evs w).
Proof.
  assert (H : post (navigateToReport_modalClosed env reportID) w
                (fun r _ => r = Ok VUndefined)).
  { unfold navigateToReport_modalClosed. wp; reflexivity. }
  destruct H as (r & evs & Hrun & ->). eauto.
Qed.

(** X2. While the singleNewDotEntry flag is set the callback makes no call to
    the navigation collaborator: it logs that it skips and returns.  An empty
    HYBRID_APP value does not clear the flag. *)
Theorem navigateToReport_skipped_in_singleNewDotEntry_flow
    (env : Env) (reportID : option JsonValue) (w : World) :
  isSingleNewDotEntry w = Some true ->
  (onHybridAppChanged None;; navigateToReport_modalClosed env reportID) w
  = (Ok VUndefined,
     logged [EvLog Info "[PushNotification] Skipping navigation - singleNewDotEntry flow"] w).
Proof.
  intros Hflag. unfold navigateToReport_modalClosed, onHybridAppChanged. mrun.
  by rewrite Hflag.
Qed.

Lemma navigateToReport_skipped_in_singleNewDotEntry_flow_witness :
  (onHybridAppChanged None;; navigateToReport_modalClosed example_env (Some (JNum 7)))
    (idle_world [] [] (Some true))
  = (Ok VUndefined,
     logged [EvLog Info "[PushNotification] Skipping navigation - singleNewDotEntry flow"]
       (idle_world [] [] (Some true))).
Proof.
  apply (navigateToReport_skipped_in_singleNewDotEntry_flow example_env (Some (JNum 7))
           (idle_world [] [] (Some true))).
  reflexivity.
Defined.




(** X4. When navigating throws, the report's route is not recorded as the last
    visited path: [updateLastVisitedPath] is never reached. *)
Theorem navigateToReport_failed_navigation_is_not_recorded
    (env : Env) (reportID : option JsonValue) (w : World) :
  (forall r, always_throws (navigate env r)) ->
  exists evs,
    navigateToReport_modalClosed env reportID w = (Ok VUndefined, logged evs w) /\
    forall path, EvCall (App_updateLastVisitedPath path) ∉ evs.
Proof.
  intros Hnav.
  assert (H : post (navigateToReport_modalClosed env reportID) w
                (fun r evs =>
                   r = Ok VUndefined /\
                   forall path, EvCall (App_updateLastVisitedPath path) ∉ evs)).
  { unfold navigateToReport_modalClosed.
    wp; try wrong_answer;
      (split; [reflexivity|]; intros path Hin; simpl in Hin;
       repeat (apply elem_of_cons in Hin as [Hin|Hin]; [discriminate|]);
       by apply elem_of_nil in Hin). }
  destruct H as (r & evs & Hrun & -> & Hevs). eauto.
Qed.

Lemma navigateToReport_failed_navigation_is_not_recorded_witness :
  exists evs,
    navigateToReport_modalClosed example_env_navigation_fails (Some (JNum 7)) init_world
    = (Ok VUndefined, logged evs init_world) /\
    forall path, EvCall (App_updateLastVisitedPath path) ∉ evs.
Proof.
  apply (navigateToReport_failed_navigation_is_not_recorded
           example_env_navigation_fails (Some (JNum 7)) init_world).
  intros r t. eexists. reflexivity.
Defined.

(** ** The trace only grows *)

Section TraceGrows.

Context (env : Env).

Lemma tg_ret {A} (a : A) : trace_grows (ret a).
Proof. intros w. by exists []. Qed.

Lemma tg_throw {A} (e : Value) : trace_grows (@throw A e).
Proof. intros w. by exists []. Qed.

Lemma tg_bind {A B} (m : M A) (k : A -> M B) :
  trace_grows m -> (forall a, trace_grows (k a)) -> trace_grows (bind m k).
Proof.
  intros Hm Hk w. unfold bind. destruct (Hm w) as [evs Hevs].
  destruct (m w) as [[a|e] w1]; simpl in *; [|by exists evs].
  destruct (Hk a w1) as [evs' Hevs']. exists (evs' ++ evs).
  by rewrite Hevs', Hevs, app_assoc.
Qed.

Lemma tg_try_catch {A} (m : M A) (handler : Value -> M A) :
  trace_grows m -> (forall e, trace_grows (handler e)) ->
  trace_grows (try_catch m handler).
Proof.
  intros Hm Hh w. unfold try_catch. destruct (Hm w) as [evs Hevs].
  destruct (m w) as [[a|e] w1]; simpl in *; [by exists evs|].
  destruct (Hh e w1) as [evs' Hevs']. exists (evs' ++ evs).
  by rewrite Hevs', Hevs, app_assoc.
Qed.

Lemma tg_emit (e : Event) : trace_grows (emit e).
Proof. intros w. by exists [e]. Qed.

Lemma tg_log (lvl : LogLevel) (msg : string) : trace_grows (log lvl msg).
Proof. apply tg_emit. Qed.

Lemma tg_lift_opt {A} (o : option A) (e : Value) : trace_grows (lift_opt o e).
Proof. destruct o; [apply tg_ret|apply tg_throw]. Qed.

Lemma tg_ext_call {A} (c : ExtCall) (answer : list Event -> Res A) :
  trace_grows (ext_call c answer).
Proof.
  intros w. exists [EvCall c]. unfold ext_call. by destruct (answer (trace w)).
Qed.

Lemma tg_get_isSingleNewDotEntry : trace_grows get_isSingleNewDotEntry.
Proof. intros w. by exists []. Qed.

Lemma tg_new_promise (st : PState) : trace_grows (new_promise st).
Proof. intros w. by exists []. Qed.

Lemma tg_enqueue (j : Job) : trace_grows (enqueue j).
Proof. intros w. by exists []. Qed.

Lemma tg_push_task (t : Task) : trace_grows (push_task t).
Proof. intros w. by exists []. Qed.

Lemma tg_settle (p : nat) (s : Settlement) : trace_grows (settle p s).
Proof.
  intros w. exists []. unfold settle.
  by destruct (heap w !! p) as [[[|s'] rs]|].
Qed.

Lemma tg_resolve (p : nat) (v : Value) : trace_grows (resolve p v).
Proof.
  unfold resolve. destruct v; try apply tg_settle.
  destruct (Nat.eqb _ _); [apply tg_settle|apply tg_enqueue].
Qed.

Lemma tg_subscribe (p : nat) (r : Reaction) : trace_grows (subscribe p r).
Proof.
  intros w. exists []. unfold subscribe.
  by destruct (heap w !! p) as [[[|s'] rs]|].
Qed.

Create HintDb tg.
#[local] Hint Resolve tg_ret tg_throw tg_emit tg_log tg_lift_opt tg_ext_call
  tg_get_isSingleNewDotEntry tg_new_promise tg_enqueue tg_push_task tg_settle
  tg_resolve tg_subscribe : tg.

Ltac tg :=
  repeat first
    [ solve [auto with tg]
    | apply tg_bind; [|intros ?]
    | apply tg_try_catch; [|intros ?]
    | match goal with
      | |- trace_grows (match ?x with _ => _ end) => destruct x
      end ].

Lemma tg_then (p : nat) (f r : option Callback) : trace_grows (then_ p f r).
Proof. unfold then_. tg. Qed.

Lemma tg_catch (p : nat) (r : Callback) : trace_grows (catch_ p r).
Proof. apply tg_then. Qed.

Lemma tg_Promise_resolve (v : Value) : trace_grows (Promise_resolve v).
Proof. unfold Promise_resolve. tg. Qed.

Lemma tg_ext_async (c : ExtCall) (o : Outcome) : trace_grows (ext_async c o).
Proof. unfold ext_async. tg. Qed.

#[local] Hint Resolve tg_then tg_catch tg_Promise_resolve tg_ext_async : tg.

Lemma tg_safelyFinishBackgroundProcessing (context : string) :
  trace_grows (safelyFinishBackgroundProcessing env context).
Proof. unfold safelyFinishBackgroundProcessing. tg. Qed.

Lemma tg_modalClosed (reportID : option JsonValue) :
  trace_grows (navigateToReport_modalClosed env reportID).
Proof. unfold navigateToReport_modalClosed. tg. Qed.

#[local] Hint Resolve tg_safelyFinishBackgroundProcessing tg_modalClosed : tg.

Lemma tg_apply_callback (cb : Callback) (arg : Value) :
  trace_grows (apply_callback env cb arg).
Proof.
  destruct cb; simpl;
    unfold resolveLastUpdateID, applyOnyxData_apply, applyOnyxData_success,
      applyOnyxData_error, navigateToReport_routesReady, register_gotNamedUser,
      register_permissionResult;
    tg.
Qed.

Lemma tg_after {A B} (m : M A) (k1 : A -> M B) (k2 : Value -> M B) :
  trace_grows m -> (forall a, trace_grows (k1 a)) -> (forall e, trace_grows (k2 e)) ->
  trace_grows (fun w => match m w with
                        | (Ok a, w') => k1 a w'
                        | (Throw e, w') => k2 e w'
                        end).
Proof.
  intros Hm Hk1 Hk2 w. destruct (Hm w) as [evs Hevs].
  destruct (m w) as [[a|e] w1]; simpl in *.
  - destruct (Hk1 a w1) as [evs' Hevs']. exists (evs' ++ evs).
    by rewrite Hevs', Hevs, app_assoc.
  - destruct (Hk2 e w1) as [evs' Hevs']. exists (evs' ++ evs).
    by rewrite Hevs', Hevs, app_assoc.
Qed.

Lemma tg_run_job (j : Job) : trace_grows (run_job env j).
Proof.
  destruct j as [[onF onR d|target] s|target thenable]; simpl.
  - destruct s as [v|e]; simpl.
    + destruct onF as [cb|]; [|apply tg_resolve].
      apply (tg_after (apply_callback env cb v) (fun x => resolve d x)
               (fun e => settle d (Rejected e)));
        [apply tg_apply_callback|intros; apply tg_resolve|intros; apply tg_settle].
    + destruct onR as [cb|]; [|apply tg_settle].
      apply (tg_after (apply_callback env cb e) (fun x => resolve d x)
               (fun e => settle d (Rejected e)));
        [apply tg_apply_callback|intros; apply tg_resolve|intros; apply tg_settle].
  - destruct s; [apply tg_resolve|apply tg_settle].
  - apply tg_subscribe.
Qed.

Lemma tg_run_task (t : Task) : trace_grows (run_task env t).
Proof.
  destruct t; simpl; [apply tg_settle|].
  apply tg_try_catch; [|intros; apply tg_emit].
  apply tg_bind; [apply tg_apply_callback|intros; apply tg_ret].
Qed.

Lemma step_trace_grows (w w' : World) :
  step env w = Some w' -> exists evs, trace w' = evs ++ trace w.
Proof.
  unfold step. destruct (microtasks w) as [|j rest].
  - destruct (macrotasks w) as [|t rest]; [done|].
    intros [= <-]. apply (tg_run_task t (set_macrotasks rest w)).
  - intros [= <-]. apply (tg_run_job j (set_microtasks rest w)).
Qed.

Lemma run_trace_grows (n : nat) (w : World) :
  exists evs, trace (run env n w) = evs ++ trace w.
Proof.
  revert w. induction n as [|n IH]; intros w; simpl; [by exists []|].
  destruct (step env w) as [w'|] eqn:Hstep; [|by exists []].
  destruct (step_trace_grows w w' Hstep) as [evs Hevs].
  destruct (IH w') as [evs' Hevs']. exists (evs' ++ evs).
  by rewrite Hevs', Hevs, app_assoc.
Qed.

Lemma run_split (n k : nat) (w : World) :
  run env (n + k) w = run env k (run env n w).
Proof.
  revert w. induction n as [|n IH]; intros w; simpl; [done|].
  destruct (step env w) as [w'|] eqn:Hstep; [apply IH|].
  symmetry. by apply run_quiescent.
Qed.

(** What never happened by the time the loop is at rest never happened on
    the way there, and never happens afterwards. *)
Lemma never_until_rest (f : Event -> bool) (k : nat) (w : World)
    (t evs : list Event) :
  (exists evs0, trace w = evs0 ++ t) ->
  quiescent env (run env k w) ->
  trace (run env k w) = evs ++ t ->
  events_of f evs = [] ->
  forall n, exists evs',
    trace (run env n w) = evs' ++ t /\ events_of f evs' = [].
Proof.
  intros [evs0 Hw] Hq Hk Hnone n.
  destruct (decide (k <= n)%nat) as [Hle|Hgt].
  - rewrite (run_past_rest env k n w Hq Hle). eauto.
  - destruct (run_trace_grows n w) as [e1 He1].
    replace k with (n + (k - n))%nat in Hk by lia. rewrite run_split in Hk.
    destruct (run_trace_grows (k - n) (run env n w)) as [e2 He2].
    rewrite He2, He1, Hw in Hk. rewrite !app_assoc in Hk.
    apply app_inv_tail in Hk. subst evs.
    exists (e1 ++ evs0). split; [by rewrite He1, Hw, app_assoc|].
    unfold events_of in *. rewrite <- app_assoc, filter_app in Hnone.
    by apply app_eq_nil in Hnone as [_ ?].
Qed.

End TraceGrows.

(** ** Running turn by turn *)

Lemma run_turn (env : Env) (n : nat) (w w' : World) :
  step env w = Some w' -> run env (S n) w = run env n w'.
Proof. intros H. simpl. by rewrite H. Qed.

Lemma run_at_rest (env : Env) (n : nat) (w : World) :
  step env w = None -> run env n w = w.
Proof. intros H. by apply run_quiescent. Qed.

Lemma ext_async_run (c : ExtCall) (o : Outcome) (w : World) :
  ext_async c o w
  = (Ok (length (heap w)),
     mkWorld (heap w ++ [mkCell Pending []]) (microtasks w)
       (macrotasks w ++ completion o (length (heap w)))
       (EvCall c :: trace w) (isSingleNewDotEntry w)).
Proof. destruct o; unfold ext_async; mrun; try reflexivity. by rewrite app_nil_r. Qed.

Lemma navigateToReport_nonnull (env : Env) (data : JsonValue) :
  data <> JNull ->
  navigateToReport env data = navigateToReport_of env (get_prop data "reportID").
Proof. by destruct data. Qed.

#[local] Arguments run : simpl never.

Ltac prog2 :=
  repeat (progress
            (unfold register, register_gotNamedUser, register_permissionResult,
               navigateToReport_of, navigateToReport_routesReady,
               applyOnyxData_chain, applyOnyxData_apply, applyOnyxData_success,
               applyOnyxData_error, safelyFinishBackgroundProcessing,
               getLastUpdateIDAppliedToClient, resolveLastUpdateID,
               logMissingOnyxDataInfo, then_, catch_, subscribe, settle, resolve,
               bind, ret, throw, try_catch, log, emit, lift_opt,
               new_promise, enqueue, push_task, Promise_resolve,
               ext_call, get_isSingleNewDotEntry;
             rewrite ?ext_async_run;
             simpl)).

Ltac heap_norm2 :=
  repeat (progress
            (rewrite <- ?app_assoc, <- ?Nat.add_assoc, ?length_base, ?lookup_base,
               ?lookup_shift, ?insert_base, ?insert_shift, ?eqb_shift;
             simpl)).

Ltac exec2 := repeat (progress (prog2; heap_norm2)).

(** One turn of the loop; [tac] rewrites with what is known of the
    environment. *)
Ltac turn_with tac :=
  erewrite run_turn
    by (unfold step, run_job, run_task, run_reaction, apply_callback;
        simpl; tac;
        repeat (progress (exec2; tac));
        lazymatch goal with
        | |- Some (mkWorld _ _ _ _ _) = Some _ => reflexivity
        end).

Ltac turn := turn_with idtac.

Lemma run_0 (env : Env) (w : World) : run env 0 w = w.
Proof. reflexivity. Qed.

Ltac at_rest := first [rewrite run_0 | rewrite run_at_rest by reflexivity]; simpl.

(** Closes [exists evs, trace = evs ++ t /\ ...] on a computed trace when
    the remaining conjuncts hold by computation. *)
Ltac exists_new :=
  lazymatch goal with
  | |- exists evs, ?tr = evs ++ ?t /\ _ =>
      let l := prefix_of tr t in
      exists l; repeat split; reflexivity
  end.

(** ** navigateToReport, through the event loop *)

(** X5. Until the protected routes are ready and the modal has been closed,
    nothing is done to the navigation: if [waitForProtectedRoutes] rejects or
    never settles, or [Modal.close] never calls back, then at no moment of the
    run is there a call of the navigation collaborator or of
    [updateLastVisitedPath]. *)
Theorem navigateToReport_waits_for_routes_and_modal
    (env : Env) (data : JsonValue) (h : list Cell) (t : list Event)
    (single : option bool) :
  data <> JNull ->
  (exists e, waitForProtectedRoutes env = Rejects e)
  \/ waitForProtectedRoutes env = Hangs
  \/ Modal_close_mode env = NeverCallsBack ->
  forall n, exists evs,
    trace (run env n (snd (navigateToReport env data (idle_world h t single)))) = evs ++ t /\
    events_of is_navigation_step evs = [].
Proof.
  intros Hnn Hcase. rewrite navigateToReport_nonnull by done.
  assert (Hrest : exists evs,
    quiescent env (run env 3 (snd (navigateToReport_of env (get_prop data "reportID")
                                     (idle_world h t single)))) /\
    trace (run env 3 (snd (navigateToReport_of env (get_prop data "reportID")
                             (idle_world h t single)))) = evs ++ t /\
    events_of is_navigation_step evs = []).
  { unfold idle_world. exec2.
    destruct Hcase as [[e He] | [He | Hm]].
    - rewrite He. simpl. repeat turn. at_rest. exists_events.
    - rewrite He. simpl. repeat turn. at_rest. exists_events.
    - destruct (waitForProtectedRoutes env) as [v|e|]; simpl;
        repeat (turn_with ltac:(rewrite ?Hm)); try at_rest; exists_events. }
  destruct Hrest as (evs & Hq & Htrace & Hnone).
  apply (never_until_rest env is_navigation_step 3 _ t evs); try done.
  unfold idle_world. exec2. by eexists [_; _].
Qed.

Lemma navigateToReport_waits_for_routes_and_modal_witness :
  waitForProtectedRoutes example_env_no_bridge = Hangs /\
  forall n, exists evs,
    trace (run example_env_no_bridge n
             (snd (navigateToReport example_env_no_bridge example_data
                     (idle_world [] [] None)))) = evs ++ [] /\
    events_of is_navigation_step evs = [].
Proof.
  split; [reflexivity|].
  apply (navigateToReport_waits_for_routes_and_modal example_env_no_bridge example_data
           [] [] None).
  - discriminate.
  - right. left. reflexivity.
Defined.






(** ** Registration, when there is something to do *)

(** X7. When the SDK reports another identity than the desired one (or none),
    Register asks for the permission once and then identifies the device once
    under the desired ID as a string, in the same turn: the identify call
    does not wait for the permission, and it is made whether the permission
    request and the status request succeed, fail or never settle.  The run is
    at rest after nine turns. *)
Theorem register_other_identity_identifies
    (env : Env) (notificationID : NotificationID) (h : list Cell)
    (t : list Event) (single : option bool) (userID : option JsonValue) :
  getNamedUserId env = Resolves userID ->
  strict_eq_string (of_opt userID) (NotificationID_toString notificationID) = false ->
  let w' := run env 9 (snd (register env notificationID (idle_world h t single))) in
  quiescent env w' /\
  exists evs,
    trace w' = evs ++ t /\
    events_of is_identify_or_permission evs
    = [EvCall (Airship_contact_identify (NotificationID_toString notificationID));
       EvCall Airship_push_enableUserNotifications].
Proof.
  intros Hid Hne w'. subst w'. unfold idle_world.
  unfold register. rewrite Hid. exec2.
  turn. turn_with ltac:(rewrite ?Hne). turn.
  destruct (enableUserNotifications env) as [x|e|], (getNotificationStatus env) as [y|e'|];
    simpl; try destruct (truthy_value (of_opt x)) eqn:Hx;
    repeat (turn_with ltac:(rewrite ?Hx)); at_rest;
    (split; [reflexivity|]; exists_new).
Qed.

Lemma register_other_identity_identifies_witness :
  let w' := run example_env 9 (snd (register example_env (IDNum 43) (idle_world [] [] None))) in
  quiescent example_env w' /\
  exists evs,
    trace w' = evs ++ [] /\
    events_of is_identify_or_permission evs
    = [EvCall (Airship_contact_identify "43"); EvCall Airship_push_enableUserNotifications].
Proof.
  apply (register_other_identity_identifies example_env (IDNum 43) [] [] None
           (Some (JStr "42"))); reflexivity.
Defined.

(** X8. When the SDK cannot report the current identity, because the request
    is rejected or never settles, Register goes no further: at no moment of
    the run is the permission requested or the device identified. *)
Theorem register_read_failure_abandons
    (env : Env) (notificationID : NotificationID) (h : list Cell)
    (t : list Event) (single : option bool) :
  (exists e, getNamedUserId env = Rejects e) \/ getNamedUserId env = Hangs ->
  forall n, exists evs,
    trace (run env n (snd (register env notificationID (idle_world h t single)))) = evs ++ t /\
    events_of is_identify_or_permission evs = [].
Proof.
  intros Hcase.
  assert (Hrest : exists evs,
    quiescent env (run env 3 (snd (register env notificationID (idle_world h t single)))) /\
    trace (run env 3 (snd (register env notificationID (idle_world h t single)))) = evs ++ t /\
    events_of is_identify_or_permission evs = []).
  { unfold idle_world, register.
    destruct Hcase as [[e ->] | ->]; exec2; repeat turn; at_rest; exists_events. }
  destruct Hrest as (evs & Hq & Htrace & Hnone).
  apply (never_until_rest env _ 3 _ t evs); try done.
  unfold idle_world, register. exec2. by eexists [_; _; _].
Qed.

Lemma register_read_failure_abandons_witness :
  getNamedUserId example_env_collaborator_hangs = Rejects (VError "airship is not ready") /\
  forall n, exists evs,
    trace (run example_env_collaborator_hangs n
             (snd (register example_env_collaborator_hangs (IDNum 43)
                     (idle_world [] [] None)))) = evs ++ [] /\
    events_of is_identify_or_permission evs = [].
Proof.
  split; [reflexivity|].
  apply (register_read_failure_abandons example_env_collaborator_hangs (IDNum 43)
           [] [] None).
  left. eexists. reflexivity.
Defined.

(** ** The promise chain of the Update Applier *)

Ltac exists_rest :=
  lazymatch goal with
  | |- exists evs, ?tr = evs ++ ?t /\ _ =>
      let l := prefix_of tr t in
      exists l; split; [reflexivity|]
  end.

(** Hides everything but the run, so that turns rewrite one world. *)
Ltac focus_run env :=
  match goal with
  | |- context [run env ?k ?W] =>
      pattern (run env k W);
      match goal with
      | |- ?P _ => let Q := fresh "Q" in let HQ := fresh "HQ" in remember P as Q eqn:HQ
      end
  end.

Lemma resolveLastUpdateID_stored (env : Env) (p : nat) (x : option Z) :
  resolveLastUpdateID env p (of_opt (JNum <$> x))
  = (resolve p (VJson (JNum (default (DEFAULT_NUMBER_ID env) x)));; ret VUndefined).
Proof. by destruct x. Qed.

(** Closes a case of the chain at rest: the world is known, and so is what
    the bridge and its finish call do. *)
Ltac chain_at_rest :=
  at_rest;
  match goal with HQ : _ = (fun w : World => _) |- _ => subst end;
  simpl; (split; [reflexivity|]);
  exists_rest; (split; [reflexivity|]); (split; [reflexivity|]);
  split;
  [ intros ? Hbr Hfin;
    first [ reflexivity
          | congruence
          | unfold finish_does_not_fail in Hfin; destruct Hfin as [Hthrows Hrejects];
            exfalso;
            first [ eapply Hthrows; eassumption | eapply Hrejects; eassumption ] ]
  | intros ? Hnorm;
    first [ eexists; unfold promise_state; simpl; heap_norm2; reflexivity
          | congruence
          | unfold finish_returns_normally in Hnorm; exfalso;
            specialize (Hnorm ltac:(first [reflexivity | eassumption]));
            destruct Hnorm as [Hn|[? Hn]]; congruence ] ].

(** The chain when the collaborator's promise never settles: at rest after
    three turns, with the collaborator called and nothing else done. *)
Lemma applyOnyxData_chain_hangs (env : Env) (reportID lastUpdateID : option JsonValue)
    (u : OnyxUpdatesFromServer) (h : list Cell) (t : list Event) (single : option bool) :
  let c := VJson (JNum (default (DEFAULT_NUMBER_ID env) (lastUpdateIDAppliedToClient env))) in
  applyOnyxUpdatesReliably env u c = ReturnsPromise Hangs ->
  let w' := run env 12 (snd (applyOnyxData_chain env reportID lastUpdateID u
                               (idle_world h t single))) in
  quiescent env w' /\
  exists evs,
    trace w' = evs ++ t /\
    events_of is_finish_signal evs = [] /\
    promise_state w' (length h + 3) = Some Pending.
Proof.
  intros c Happ w'. subst w'. unfold idle_world. exec2.
  turn_with ltac:(rewrite ?resolveLastUpdateID_stored).
  fold c. turn_with ltac:(rewrite ?Happ).
  repeat turn. at_rest. split; [reflexivity|].
  exists_rest. split; [reflexivity|].
  unfold promise_state. simpl. heap_norm2. reflexivity.
Qed.

(** The chain, started in an idle loop, is at rest after at most thirteen
    turns; this is what it has done by then, for every behaviour of the
    collaborator, every configuration of the host bridge and every behaviour
    of its finish call. *)
Lemma applyOnyxData_chain_rest (env : Env) (reportID lastUpdateID : option JsonValue)
    (u : OnyxUpdatesFromServer) (h : list Cell) (t : list Event) (single : option bool) :
  let c := VJson (JNum (default (DEFAULT_NUMBER_ID env) (lastUpdateIDAppliedToClient env))) in
  let r := applyOnyxData_chain env reportID lastUpdateID u (idle_world h t single) in
  let w' := run env 13 (snd r) in
  fst r = Ok (VPromise (length h + 3)) /\
  quiescent env w' /\
  exists evs,
    trace w' = evs ++ t /\
    events_of is_collaborator_call evs = [EvCall (Call_applyOnyxUpdatesReliably u true c)] /\
    events_of is_invoke evs = [] /\
    (applyOnyxUpdatesReliably env u c <> ReturnsPromise Hangs ->
     PushNotificationBridge env = Some (mkBridge true) ->
     finish_does_not_fail env ->
     count is_finish_signal evs = 1%nat) /\
    (applyOnyxUpdatesReliably env u c <> ReturnsPromise Hangs ->
     (PushNotificationBridge env = Some (mkBridge true) -> finish_returns_normally env) ->
     exists x, promise_state w' (length h + 3) = Some (Settled (Fulfilled x))).
Proof.
  intros c r w'. subst r w'. unfold idle_world. exec2.
  split; [reflexivity|].
  focus_run env.
  turn_with ltac:(rewrite ?resolveLastUpdateID_stored).
  fold c.
  destruct (applyOnyxUpdatesReliably env u c) as [e|[[v|]|e|]] eqn:Happ;
    turn_with ltac:(rewrite ?Happ).
  5:{ repeat turn. chain_at_rest. }
  all: destruct (PushNotificationBridge env) as [[[|]]|] eqn:Hb;
    [ destruct (finishBackgroundProcessing env) as [|fe|[[fv|]|fe|]] eqn:Hf
    | destruct (DEV env) eqn:Hdev
    | destruct (DEV env) eqn:Hdev ];
    repeat (turn_with ltac:(rewrite ?Hb, ?Hf, ?Hdev)); chain_at_rest.
Qed.

Lemma required_or_missing (data : JsonValue) :
  required_fields_present data \/ missing_required_field data.
Proof.
  unfold required_fields_present, missing_required_field, has, lacks.
  destruct (hasPendingOnyxUpdates_of data);
    destruct (truthy_opt (get_prop data "lastUpdateID"));
    destruct (truthy_opt (get_prop data "previousUpdateID"));
    destruct (truthy_opt (get_prop data "onyxData")); auto.
Qed.

Lemma events_of_app (f : Event -> bool) (l1 l2 : list Event) :
  events_of f (l1 ++ l2) = events_of f l1 ++ events_of f l2.
Proof. unfold events_of. apply filter_app. Qed.

(** What [applyOnyxData] hands to its promise chain. *)
Lemma applyOnyxData_present_updates (env : Env) (data : JsonValue) (w : World) :
  data <> JNull ->
  required_fields_present data ->
  exists u,
    applyOnyxData env data w
    = applyOnyxData_chain env (get_prop data "reportID") (get_prop data "lastUpdateID") u
        (logged [EvLog Info "[PushNotification] SUCCESS - reliable onyx update received";
                 EvLog Info "[PushNotification] Starting to apply onyx data - "] w) /\
    get_prop data "lastUpdateID" = Some (lastUpdateID u) /\
    if hasPendingOnyxUpdates_of data
    then previousUpdateID u = None /\ shouldFetchPendingUpdates u = Some true /\
         updates u = []
    else previousUpdateID u = get_prop data "previousUpdateID" /\
         shouldFetchPendingUpdates u = None /\
         exists onyxData, get_prop data "onyxData" = Some onyxData /\
                          updates u = [mkOnyxUpdateEvent "" onyxData].
Proof.
  intros Hnn Hreq.
  unfold required_fields_present, hasPendingOnyxUpdates_of, has in *.
  destruct data as [| | | | |fields]; [done|..]; simpl in Hreq;
    try (by destruct Hreq).
  unfold applyOnyxData. cbv zeta. simpl.
  destruct (truthy (default (JBool false) (assoc "hasPendingOnyxUpdates" fields))).
  - rewrite Hreq. simpl. eexists. split; [reflexivity|]. simpl.
    destruct (assoc "lastUpdateID" fields); [done|discriminate].
  - destruct Hreq as (H1 & H2 & H3). rewrite H1, H2, H3. simpl.
    eexists. split; [reflexivity|]. simpl.
    destruct (assoc "lastUpdateID" fields); [|discriminate].
    destruct (assoc "onyxData" fields); [|discriminate].
    repeat split. eauto.
Qed.

(** ** The finish signal *)

(** C2, as the code has it.  With the bridge's finish function available and a
    collaborator that settles (by fulfilling, rejecting or throwing), a call
    whose required fields are present sends the "finish background processing"
    signal exactly once, provided the finish call itself does not fail: it
    neither throws nor returns a promise that is rejected.  A call with a
    missing required field returns before the collaborator is reached and
    never sends the signal. *)
Theorem applyOnyxData_finish_signal
    (env : Env) (data : JsonValue) (h : list Cell) (t : list Event)
    (single : option bool) :
  data <> JNull ->
  PushNotificationBridge env = Some (mkBridge true) ->
  (forall u c, applyOnyxUpdatesReliably env u c <> ReturnsPromise Hangs) ->
  (required_fields_present data ->
   finish_does_not_fail env ->
   finish_signal_sent_once env data h t single) /\
  (missing_required_field data ->
   forall n, exists evs,
     trace (run env n (snd (applyOnyxData env data (idle_world h t single)))) = evs ++ t /\
     count is_finish_signal evs = 0%nat).
Proof.
  intros Hnn Hbridge Hsettles. split.
  - intros Hreq Hfinish. unfold finish_signal_sent_once. exists 13%nat.
    destruct (applyOnyxData_present_updates env data (idle_world h t single) Hnn Hreq)
      as (u & -> & _).
    destruct (applyOnyxData_chain_rest env (get_prop data "reportID")
                (get_prop data "lastUpdateID") u h
                (EvLog Info "[PushNotification] SUCCESS - reliable onyx update received"
                 :: EvLog Info "[PushNotification] Starting to apply onyx data - " :: t)
                single)
      as (_ & Hq & evs & Htrace & _ & _ & Hcount & _).
    exists (evs ++ [EvLog Info "[PushNotification] SUCCESS - reliable onyx update received";
                    EvLog Info "[PushNotification] Starting to apply onyx data - "]).
    split; [exact Hq|]. split.
    + rewrite <- app_assoc. exact Htrace.
    + specialize (Hcount (Hsettles _ _) Hbridge Hfinish).
      unfold count in *. by rewrite filter_app, length_app, Hcount.
  - intros Hmiss n.
    destruct (applyOnyxData_missing_run env data (idle_world h t single) Hnn Hmiss)
      as (logs & Hlogs & ->).
    exists logs. simpl. rewrite run_quiescent by done. simpl.
    split; [done|]. by apply count_logs.
Qed.

Lemma applyOnyxData_finish_signal_witness :
  let data := JObj [("type", JStr "reportComment"); ("reportID", JNum 7);
                    ("lastUpdateID", JNum 100); ("previousUpdateID", JNum 99);
                    ("onyxData", JArr [])] in
  finish_signal_sent_once example_env data [] [] None.
Proof.
  intros data.
  apply (applyOnyxData_finish_signal example_env data [] [] None).
  - discriminate.
  - reflexivity.
  - discriminate.
  - repeat split.
  - split; discriminate.
Defined.

(** C2 as stated fails: an input without [lastUpdateID] on the pending path
    comes to rest without the signal, although the bridge is there. *)
Lemma applyOnyxData_missing_field_sends_no_signal :
  PushNotificationBridge example_env = Some (mkBridge true) /\
  ~ finish_signal_sent_once example_env
      (JObj [("type", JStr "reportComment"); ("reportID", JNum 7);
             ("hasPendingOnyxUpdates", JBool true)])
      [] [] None.
Proof.
  split; [reflexivity|].
  intros (k & evs & Hq & Htrace & Hcount).
  rewrite run_quiescent in Htrace by reflexivity.
  simpl in Htrace. rewrite app_nil_r in Htrace. subst evs.
  vm_compute in Hcount. discriminate.
Qed.

(** ** What the Update Applier hands to the collaborator *)

(** X9. With its required fields present, the Update Applier calls the
    reliable-update collaborator exactly once, with [shouldRunSync] set and
    with the stored last update ID, or the default number ID when none is
    stored, as the client's last update ID.  The updates carry the
    notification's [lastUpdateID]; on the pending path they ask to fetch the
    pending updates and carry no update of their own, whatever [onyxData]
    the notification holds; on the inline path they carry [previousUpdateID]
    and [onyxData] as one update with an empty event type. *)
Theorem applyOnyxData_calls_collaborator_once
    (env : Env) (data : JsonValue) (h : list Cell) (t : list Event)
    (single : option bool) :
  data <> JNull ->
  required_fields_present data ->
  exists u evs,
    let w' := run env 13 (snd (applyOnyxData env data (idle_world h t single))) in
    quiescent env w' /\
    trace w' = evs ++ t /\
    events_of is_collaborator_call evs
    = [EvCall (Call_applyOnyxUpdatesReliably u true
                 (VJson (JNum (default (DEFAULT_NUMBER_ID env)
                                 (lastUpdateIDAppliedToClient env)))))] /\
    get_prop data "lastUpdateID" = Some (lastUpdateID u) /\
    if hasPendingOnyxUpdates_of data
    then previousUpdateID u = None /\ shouldFetchPendingUpdates u = Some true /\
         updates u = []
    else previousUpdateID u = get_prop data "previousUpdateID" /\
         shouldFetchPendingUpdates u = None /\
         exists onyxData, get_prop data "onyxData" = Some onyxData /\
                          updates u = [mkOnyxUpdateEvent "" onyxData].
Proof.
  intros Hnn Hreq.
  destruct (applyOnyxData_present_updates env data (idle_world h t single) Hnn Hreq)
    as (u & -> & Hid & Hu).
  destruct (applyOnyxData_chain_rest env (get_prop data "reportID")
              (get_prop data "lastUpdateID") u h
              (EvLog Info "[PushNotification] SUCCESS - reliable onyx update received"
               :: EvLog Info "[PushNotification] Starting to apply onyx data - " :: t)
              single)
    as (_ & Hq & evs & Htrace & Hcall & _ & _).
  exists u, (evs ++ [EvLog Info "[PushNotification] SUCCESS - reliable onyx update received";
                     EvLog Info "[PushNotification] Starting to apply onyx data - "]).
  split; [exact Hq|]. split; [by rewrite <- app_assoc|].
  split; [|by split].
  rewrite events_of_app, Hcall. reflexivity.
Qed.

Lemma applyOnyxData_calls_collaborator_once_witness :
  exists u evs,
    let w' := run example_env 13 (snd (applyOnyxData example_env example_update
                                         (idle_world [] [] None))) in
    quiescent example_env w' /\
    trace w' = evs ++ [] /\
    events_of is_collaborator_call evs
    = [EvCall (Call_applyOnyxUpdatesReliably u true (VJson (JNum 99)))] /\
    get_prop example_update "lastUpdateID" = Some (lastUpdateID u) /\
    (previousUpdateID u = Some (JNum 99) /\
     shouldFetchPendingUpdates u = None /\
     exists onyxData, get_prop example_update "onyxData" = Some onyxData /\
                      updates u = [mkOnyxUpdateEvent "" onyxData]).
Proof.
  apply (applyOnyxData_calls_collaborator_once example_env example_update [] [] None).
  - discriminate.
  - repeat split.
Defined.

(** X10. The promise that the Update Applier returns ends fulfilled, and so
    is not rejected, whether the collaborator fulfils, rejects or throws and
    whether a required field is missing, provided the collaborator settles
    and the finish call of the host bridge, where the bridge has one, returns
    normally: it returns undefined or a promise that is fulfilled.  The
    hypothesis on the finish call is needed: what the call throws, or the
    rejection of the promise it returns, is passed on by the chain. *)
Theorem applyOnyxData_promise_fulfilled_when_finish_returns
    (env : Env) (data : JsonValue) (h : list Cell) (t : list Event)
    (single : option bool) :
  data <> JNull ->
  (forall u c, applyOnyxUpdatesReliably env u c <> ReturnsPromise Hangs) ->
  (PushNotificationBridge env = Some (mkBridge true) -> finish_returns_normally env) ->
  let r := applyOnyxData env data (idle_world h t single) in
  exists v x,
    fst r = Ok v /\
    quiescent env (run env 13 (snd r)) /\
    fulfilled_with (run env 13 (snd r)) v x.
Proof.
  intros Hnn Hsettles Hfinish r. subst r.
  destruct (required_or_missing data) as [Hreq|Hmiss].
  - destruct (applyOnyxData_present_updates env data (idle_world h t single) Hnn Hreq)
      as (u & -> & _).
    destruct (applyOnyxData_chain_rest env (get_prop data "reportID")
                (get_prop data "lastUpdateID") u h
                (EvLog Info "[PushNotification] SUCCESS - reliable onyx update received"
                 :: EvLog Info "[PushNotification] Starting to apply onyx data - " :: t)
                single)
      as (Hret & Hq & evs & _ & _ & _ & _ & Hdone).
    destruct (Hdone (Hsettles _ _) Hfinish) as [x Hx].
    exists (VPromise (length h + 3)), x. split; [exact Hret|]. split; [exact Hq|].
    exists (length h + 3)%nat. split; [done|]. exact Hx.
  - destruct (applyOnyxData_missing_run env data (idle_world h t single) Hnn Hmiss)
      as (logs & _ & ->).
    exists (VPromise (length h)), VUndefined. simpl.
    rewrite run_quiescent by reflexivity.
    split; [done|]. split; [reflexivity|].
    exists (length h). split; [done|].
    apply (promise_state_new (idle_world h (logs ++ t) single)).
Qed.

Lemma applyOnyxData_promise_fulfilled_when_finish_returns_witness :
  let r := applyOnyxData example_env_navigation_fails example_update (idle_world [] [] None) in
  exists v x,
    fst r = Ok v /\
    quiescent example_env_navigation_fails (run example_env_navigation_fails 13 (snd r)) /\
    fulfilled_with (run example_env_navigation_fails 13 (snd r)) v x.
Proof.
  apply (applyOnyxData_promise_fulfilled_when_finish_returns example_env_navigation_fails
           example_update [] [] None).
  - discriminate.
  - discriminate.
  - intros _. left. reflexivity.
Defined.

(** When the finish call throws, the chain calls it a second time from its
    error handler after a successful application, and the promise that the
    Update Applier returned ends rejected with what the call threw. *)
Example failing_finish_is_repeated_and_rejects :
  let r := applyOnyxData example_env_finish_throws example_update (idle_world [] [] None) in
  let w' := run example_env_finish_throws 13 (snd r) in
  fst r = Ok (VPromise 3) /\
  quiescent example_env_finish_throws w' /\
  count is_finish_signal (trace w') = 2%nat /\
  promise_state w' 3 = Some (Settled (Rejected (VError "bridge is gone"))).
Proof. repeat split. Qed.

(** X11. When the collaborator's promise never settles, the finish signal is
    never sent and the promise that the Update Applier returned stays
    pending: the loop comes to rest with neither. *)
Theorem applyOnyxData_collaborator_hangs
    (env : Env) (data : JsonValue) (h : list Cell) (t : list Event)
    (single : option bool) :
  data <> JNull ->
  required_fields_present data ->
  (forall u c, applyOnyxUpdatesReliably env u c = ReturnsPromise Hangs) ->
  let r := applyOnyxData env data (idle_world h t single) in
  exists p,
    fst r = Ok (VPromise p) /\
    quiescent env (run env 12 (snd r)) /\
    promise_state (run env 12 (snd r)) p = Some Pending /\
    forall n, exists evs,
      trace (run env n (snd r)) = evs ++ t /\
      events_of is_finish_signal evs = [].
Proof.
  intros Hnn Hreq Hhangs r. subst r.
  destruct (applyOnyxData_present_updates env data (idle_world h t single) Hnn Hreq)
    as (u & -> & _).
  destruct (applyOnyxData_chain_rest env (get_prop data "reportID")
              (get_prop data "lastUpdateID") u h
              (EvLog Info "[PushNotification] SUCCESS - reliable onyx update received"
               :: EvLog Info "[PushNotification] Starting to apply onyx data - " :: t)
              single)
    as (Hret & _).
  destruct (applyOnyxData_chain_hangs env (get_prop data "reportID")
              (get_prop data "lastUpdateID") u h
              (EvLog Info "[PushNotification] SUCCESS - reliable onyx update received"
               :: EvLog Info "[PushNotification] Starting to apply onyx data - " :: t)
              single (Hhangs _ _))
    as (Hq & evs & Htrace & Hnone & Hpending).
  exists (length h + 3)%nat. split; [exact Hret|]. split; [exact Hq|].
  split; [exact Hpending|].
  apply (never_until_rest env is_finish_signal 12 _ t
           (evs ++ [EvLog Info "[PushNotification] SUCCESS - reliable onyx update received";
                    EvLog Info "[PushNotification] Starting to apply onyx data - "])).
  - unfold idle_world. exec2. by eexists [_; _; _].
  - exact Hq.
  - by rewrite <- app_assoc.
  - by rewrite events_of_app, Hnone.
Qed.

Lemma applyOnyxData_collaborator_hangs_witness :
  let r := applyOnyxData example_env_collaborator_hangs example_update (idle_world [] [] None) in
  exists p,
    fst r = Ok (VPromise p) /\
    quiescent example_env_collaborator_hangs (run example_env_collaborator_hangs 12 (snd r)) /\
    promise_state (run example_env_collaborator_hangs 12 (snd r)) p = Some Pending /\
    forall n, exists evs,
      trace (run example_env_collaborator_hangs n (snd r)) = evs ++ [] /\
      events_of is_finish_signal evs = [].
Proof.
  apply (applyOnyxData_collaborator_hangs example_env_collaborator_hangs example_update
           [] [] None).
  - discriminate.
  - repeat split.
  - reflexivity.
Defined.

Lemma events_of_logs (f : Event -> bool) (logs : list Event) :
  (forall lvl msg, f (EvLog lvl msg) = false) ->
  Forall (fun e => is_log e = true) logs ->
  events_of f logs = [].
Proof.
  intros Hf. unfold events_of. induction 1 as [|e l He _ IH]; [done|].
  destruct e; try discriminate.
  rewrite filter_cons_False; [done|]. by rewrite Hf.
Qed.

(** ** The notification filter *)

(** X12. A payload that decodes to a falsy JSON value (null, false, zero or
    the empty string) is handled like one that does not decode: the
    notification is shown, nothing is raised and no collaborator is asked. *)
Theorem shouldShowPushNotification_falsy_data_is_shown
    (env : Env) (pushPayload : PushPayload) (w : World) (data : JsonValue) :
  decoder_yields env (assoc "payload" (extras pushPayload)) (Some data) ->
  truthy data = false ->
  exists logs,
    Forall (fun e => is_log e = true) logs /\
    shouldShowPushNotification env pushPayload w = (Ok true, logged logs w).
Proof.
  intros Hy Hfalsy. unfold shouldShowPushNotification. log_steps.
  match goal with
  | |- context [bind (parsePushNotificationPayload env ?p) _ ?W] =>
      destruct (decoder_yields_run env p _ W Hy) as (logs & Hlogs & Hrun)
  end.
  rewrite (bind_ok _ _ _ _ _ Hrun). simpl. rewrite Hfalsy. simpl. finish_logged.
Qed.

Lemma shouldShowPushNotification_falsy_data_is_shown_witness :
  exists logs,
    Forall (fun e => is_log e = true) logs /\
    shouldShowPushNotification example_env (example_notification (Some (JNum 0))) init_world
    = (Ok true, logged logs init_world).
Proof.
  apply (shouldShowPushNotification_falsy_data_is_shown example_env
           (example_notification (Some (JNum 0))) init_world (JNum 0)).
  - intros w. reflexivity.
  - reflexivity.
Defined.




(** ** The handlers of the sign-in callback *)

Lemma onReceived_run (type : string) (h : Handler) (t : Table) (w : World) :
  exists logs,
    Forall (fun e => is_log e = true) logs /\
    onReceived type h t w
    = (Ok (<[PushReceived := <[type := h]> (default ∅ (t !! PushReceived))]> t),
       logged logs w).
Proof.
  unfold onReceived. log_steps.
  destruct (bind_handler_run PushReceived type h t
              (logged [EvLog Info "[PushNotification] Setting up onReceived callback"] w))
    as (logs & Hlogs & ->).
  rewrite logged_app. eexists. split; [|reflexivity]. all_logs.
Qed.

Lemma onSelected_run (type : string) (h : Handler) (t : Table) (w : World) :
  exists logs,
    Forall (fun e => is_log e = true) logs /\
    onSelected type h t w
    = (Ok (<[NotificationResponse := <[type := h]> (default ∅ (t !! NotificationResponse))]> t),
       logged logs w).
Proof.
  unfold onSelected. log_steps.
  destruct (bind_handler_run NotificationResponse type h t
              (logged [EvLog Info "[PushNotification] Setting up onSelected callback"] w))
    as (logs & Hlogs & ->).
  rewrite logged_app. eexists. split; [|reflexivity]. all_logs.
Qed.

Lemma bind_notification_handlers_run
    (env : Env) (REPORT_COMMENT REPORT_ACTION TRANSACTION : string)
    (t : Table) (w : World) :
  exists table logs,
    Forall (fun e => is_log e = true) logs /\
    bind_notification_handlers env REPORT_COMMENT REPORT_ACTION TRANSACTION t w
    = (Ok table, logged logs w) /\
    (forall type,
        type ∈ [REPORT_COMMENT; REPORT_ACTION; TRANSACTION] ->
        lookup_handler table PushReceived type = Some (applyOnyxData_handler env) /\
        lookup_handler table NotificationResponse type
        = Some (navigateToReport_handler env)) /\
    (forall ev type,
        type ∉ [REPORT_COMMENT; REPORT_ACTION; TRANSACTION] ->
        lookup_handler table ev type = lookup_handler t ev type).
Proof.
  unfold bind_notification_handlers.
  destruct (onReceived_run REPORT_COMMENT (applyOnyxData_handler env) t w)
    as (l1 & Hl1 & H1).
  rewrite (bind_ok _ _ _ _ _ H1); cbv beta.
  match goal with |- context [onSelected _ _ ?t'] => set (t1 := t') end.
  destruct (onSelected_run REPORT_COMMENT (navigateToReport_handler env) t1 (logged l1 w))
    as (l2 & Hl2 & H2).
  rewrite (bind_ok _ _ _ _ _ H2); cbv beta.
  match goal with |- context [onReceived _ _ ?t'] => set (t2 := t') end.
  destruct (onReceived_run REPORT_ACTION (applyOnyxData_handler env) t2
              (logged l2 (logged l1 w))) as (l3 & Hl3 & H3).
  rewrite (bind_ok _ _ _ _ _ H3); cbv beta.
  match goal with |- context [onSelected _ _ ?t'] => set (t3 := t') end.
  destruct (onSelected_run REPORT_ACTION (navigateToReport_handler env) t3
              (logged l3 (logged l2 (logged l1 w)))) as (l4 & Hl4 & H4).
  rewrite (bind_ok _ _ _ _ _ H4); cbv beta.
  match goal with |- context [onReceived _ _ ?t'] => set (t4 := t') end.
  destruct (onReceived_run TRANSACTION (applyOnyxData_handler env) t4
              (logged l4 (logged l3 (logged l2 (logged l1 w))))) as (l5 & Hl5 & H5).
  rewrite (bind_ok _ _ _ _ _ H5); cbv beta.
  match goal with |- context [onSelected _ _ ?t'] => set (t5 := t') end.
  destruct (onSelected_run TRANSACTION (navigateToReport_handler env) t5
              (logged l5 (logged l4 (logged l3 (logged l2 (logged l1 w))))))
    as (l6 & Hl6 & ->).
  rewrite !logged_app.
  eexists _, _. split; [|split; [reflexivity|]]; [all_logs|].
  subst t1 t2 t3 t4 t5.
  split.
  - intros type Hin. rewrite !lookup_handler_insert.
    rewrite !elem_of_cons, elem_of_nil in Hin.
    repeat case_decide; intuition congruence.
  - intros ev type Hnotin. rewrite !lookup_handler_insert.
    rewrite !elem_of_cons, elem_of_nil in Hnotin.
    repeat case_decide; intuition congruence.
Qed.

(** X14. The six bindings of the sign-in callback cannot fail and only log.
    Afterwards each of the three notification types has [applyOnyxData] as
    its handler for received notifications and [navigateToReport] as its
    handler for selected ones, whatever was bound before and whether or not
    the three type names differ; every other type keeps the handlers it had. *)
Theorem bind_notification_handlers_wires_three_types
    (env : Env) (REPORT_COMMENT REPORT_ACTION TRANSACTION : string)
    (t : Table) (w : World) :
  exists table logs,
    Forall (fun e => is_log e = true) logs /\
    bind_notification_handlers env REPORT_COMMENT REPORT_ACTION TRANSACTION t w
    = (Ok table, logged logs w) /\
    (forall type,
        type ∈ [REPORT_COMMENT; REPORT_ACTION; TRANSACTION] ->
        lookup_handler table PushReceived type = Some (applyOnyxData_handler env) /\
        lookup_handler table NotificationResponse type
        = Some (navigateToReport_handler env)) /\
    (forall ev type,
        type ∉ [REPORT_COMMENT; REPORT_ACTION; TRANSACTION] ->
        lookup_handler table ev type = lookup_handler t ev type).
Proof. apply bind_notification_handlers_run. Qed.

Lemma logged_idle (l : list Event) (h : list Cell) (t : list Event) (single : option bool) :
  logged l (idle_world h t single) = idle_world h (l ++ t) single.
Proof. reflexivity. Qed.

(** X15. From the bindings to the collaborator: after the six bindings, a
    received notification whose payload decodes to data of one of the three
    types, with the required fields present, is dispatched to
    [applyOnyxData] and to no other handler, and the run that follows calls
    the reliable-update collaborator exactly once. *)
Theorem received_update_reaches_collaborator
    (env : Env) (REPORT_COMMENT REPORT_ACTION TRANSACTION : string) (t0 : Table)
    (notification : PushPayload) (data : JsonValue) (type : string)
    (h : list Cell) (t : list Event) (single : option bool) :
  decoder_yields env (assoc "payload" (extras notification)) (Some data) ->
  get_prop data "type" = Some (JStr type) ->
  type <> "" ->
  type ∈ [REPORT_COMMENT; REPORT_ACTION; TRANSACTION] ->
  required_fields_present data ->
  exists u evs,
    let w' :=
      run env 13
        (snd ((table <- bind_notification_handlers env REPORT_COMMENT REPORT_ACTION
                          TRANSACTION t0;;
               pushNotificationEventCallback env table PushReceived notification)
                (idle_world h t single))) in
    quiescent env w' /\
    trace w' = evs ++ t /\
    events_of is_invoke evs = [EvInvoke "applyOnyxData" data] /\
    events_of is_collaborator_call evs
    = [EvCall (Call_applyOnyxUpdatesReliably u true
                 (VJson (JNum (default (DEFAULT_NUMBER_ID env)
                                 (lastUpdateIDAppliedToClient env)))))].
Proof.
  intros Hy Htype Hne Hin Hreq.
  destruct (bind_notification_handlers_run env REPORT_COMMENT REPORT_ACTION TRANSACTION
              t0 (idle_world h t single))
    as (table & l1 & Hl1 & Hbind & Hwired & _).
  rewrite (bind_ok _ _ _ _ _ Hbind); cbv beta.
  destruct (Hwired type Hin) as [Hreceived _].
  destruct (dispatch_run env table PushReceived notification
              (logged l1 (idle_world h t single)) _ Hy)
    as (l2 & Hl2 & ->).
  assert (Hdata : data <> JNull) by (by destruct data).
  assert (dispatch_target table PushReceived (Some data)
          = Some (applyOnyxData_handler env, data)) as ->.
  { unfold dispatch_target. simpl. rewrite Htype. simpl.
    destruct data; try discriminate. simpl.
    destruct (String.eqb_spec type ""); [done|]. simpl.
    by rewrite Hreceived. }
  unfold invoke, applyOnyxData_handler. simpl.
  rewrite !logged_idle.
  change ((emit (EvInvoke "applyOnyxData" data);; applyOnyxData env data)
            (idle_world h (l2 ++ l1 ++ t) single))
    with (applyOnyxData env data
            (idle_world h (EvInvoke "applyOnyxData" data :: l2 ++ l1 ++ t) single)).
  destruct (applyOnyxData_present_updates env data
              (idle_world h (EvInvoke "applyOnyxData" data :: l2 ++ l1 ++ t) single)
              Hdata Hreq)
    as (u & -> & _).
  rewrite logged_idle.
  match goal with
  | |- context [applyOnyxData_chain env ?r ?l u (idle_world h ?tr single)] =>
      destruct (applyOnyxData_chain_rest env r l u h tr single)
        as (_ & Hq & evs & Htrace & Hcall & Hinvoke & _)
  end.
  exists u.
  exists (evs ++ [EvLog Info "[PushNotification] SUCCESS - reliable onyx update received";
                  EvLog Info "[PushNotification] Starting to apply onyx data - ";
                  EvInvoke "applyOnyxData" data] ++ l2 ++ l1).
  cbv zeta. split; [exact Hq|]. split.
  { rewrite Htrace. simpl. rewrite <- !app_assoc. simpl. by rewrite <- !app_assoc. }
  rewrite !events_of_app, Hcall, Hinvoke.
  rewrite !(events_of_logs _ l1), !(events_of_logs _ l2) by done.
  split; reflexivity.
Qed.

Lemma received_update_reaches_collaborator_witness :
  exists u evs,
    let w' :=
      run example_env 13
        (snd ((table <- bind_notification_handlers example_env "reportComment"
                          "reportAction" "transaction" ∅;;
               pushNotificationEventCallback example_env table PushReceived
                 (example_notification (Some example_update)))
                (idle_world [] [] None))) in
    quiescent example_env w' /\
    trace w' = evs ++ [] /\
    events_of is_invoke evs = [EvInvoke "applyOnyxData" example_update] /\
    events_of is_collaborator_call evs
    = [EvCall (Call_applyOnyxUpdatesReliably u true (VJson (JNum 99)))].
Proof.
  apply (received_update_reaches_collaborator example_env "reportComment" "reportAction"
           "transaction" ∅ (example_notification (Some example_update)) example_update
           "reportComment" [] [] None).
  - intros w. reflexivity.
  - reflexivity.
  - discriminate.
  - constructor.
  - repeat split.
Defined.

(** * HttpUtils *)

Section HttpUtilsProofs.
Import HttpUtils HttpUtilsSpec.

Lemma well_formed_initial : well_formed initial.
Proof.
  unfold well_formed, initial. simpl. split; [by eexists|]. split; [by eexists|]. split.
  - intros k c. rewrite !lookup_insert_Some, lookup_empty.
    intros [[_ <-]|[_ [[_ <-]|[_ ?]]]]; done.
  - intros k1 k2 c. rewrite !lookup_insert_Some, lookup_empty.
    intros [[<- <-]|[? [[<- <-]|[_ ?]]]] [[<- ?]|[? [[<- ?]|[_ ?]]]]; done.
Qed.

Lemma well_formed_bound (st : State) (k : string) (c : nat) :
  well_formed st -> abortControllerMap st !! k = Some c -> (c < length (controllers st))%nat.
Proof.
  intros (_ & _ & Hlive & _) Hk. apply (lookup_lt_Some _ _ false). eauto.
Qed.

Lemma well_formed_cancelPendingRequests (command : option string) (st : State) :
  well_formed st -> well_formed (cancelPendingRequests command st).
Proof.
  intros Hwf. pose proof Hwf as (Hall & Hsearch & Hlive & Hinj).
  unfold cancelPendingRequests, well_formed.
  set (cmd := default ABORT_COMMANDS_All command).
  assert (Hlen : length (controllers (match abortControllerMap st !! cmd with
                                      | Some controller => abort controller st
                                      | None => st
                                      end)) = length (controllers st)).
  { destruct (abortControllerMap st !! cmd); simpl; [|done]. by rewrite length_insert. }
  assert (Hmap : abortControllerMap (match abortControllerMap st !! cmd with
                                     | Some controller => abort controller st
                                     | None => st
                                     end) = abortControllerMap st).
  { by destruct (abortControllerMap st !! cmd). }
  simpl. rewrite Hlen, Hmap.
  split; [|split; [|split]].
  - destruct (decide (cmd = ABORT_COMMANDS_All)) as [->|Hne].
    + rewrite lookup_insert_eq. by eexists.
    + by rewrite lookup_insert_ne.
  - destruct (decide (cmd = ABORT_COMMANDS_SearchForReports)) as [->|Hne].
    + rewrite lookup_insert_eq. by eexists.
    + by rewrite lookup_insert_ne.
  - intros k c. rewrite lookup_insert_Some. intros [[_ <-]|[Hne Hk]].
    + rewrite <- Hlen. apply list_lookup_middle. done.
    + pose proof (well_formed_bound st k c Hwf Hk) as Hlt.
      rewrite lookup_app_l by (by rewrite Hlen).
      destruct (abortControllerMap st !! cmd) as [c0|] eqn:Hc0; simpl; [|eauto].
      rewrite list_lookup_insert_ne; [eauto|].
      intros <-. apply Hne. symmetry. eauto.
  - intros k1 k2 c. rewrite !lookup_insert_Some.
    intros [[<- <-]|[Hne1 Hk1]] [[<- Hc]|[Hne2 Hk2]]; try done.
    + pose proof (well_formed_bound st k2 _ Hwf Hk2). lia.
    + pose proof (well_formed_bound st k1 _ Hwf Hk1). lia.
    + eauto.
Qed.

Lemma well_formed_onNetworkChanged (network : option JsonValue) (st : State) :
  well_formed st -> well_formed (onNetworkChanged network st).
Proof. unfold onNetworkChanged. by destruct (negb (truthy_opt network)). Qed.

Lemma well_formed_after (actions : list Action) : well_formed (after actions).
Proof.
  unfold after. induction actions as [|a actions IH] using rev_ind; simpl.
  - apply well_formed_initial.
  - rewrite foldl_snoc. destruct a; simpl.
    + by apply well_formed_cancelPendingRequests.
    + by apply well_formed_onNetworkChanged.
Qed.

Lemma aborted_live (st : State) (c : nat) :
  controllers st !! c = Some false -> aborted st c = false.
Proof. unfold aborted. by intros ->. Qed.

(** X16. Whatever has been cancelled before, and whatever the network switches
    are, a cancellable request is given the signal of a controller that has
    not been aborted: its command's own, or the one of "All". *)
Theorem xhr_signal_is_never_aborted_at_start
    (actions : list Action) (command : string) (data : list (string * JsonValue)) :
  truthy_opt (assoc "canCancel" data) = true ->
  exists controller,
    xhr_abortSignalController command data (after actions) = Some controller /\
    aborted (after actions) controller = false /\
    (abortControllerMap (after actions) !! command = Some controller
     \/ (abortControllerMap (after actions) !! command = None /\
         abortControllerMap (after actions) !! ABORT_COMMANDS_All = Some controller)).
Proof.
  intros Hcan. pose proof (well_formed_after actions) as ([c0 Hall] & _ & Hlive & _).
  unfold xhr_abortSignalController. rewrite Hcan.
  destruct (abortControllerMap (after actions) !! command) as [c|] eqn:Hc.
  - exists c. split; [done|]. split; [|by left]. apply aborted_live. eauto.
  - exists c0. split; [done|]. split; [|by right]. apply aborted_live. eauto.
Qed.

Lemma xhr_signal_is_never_aborted_at_start_witness :
  exists controller,
    xhr_abortSignalController "OpenApp" [("canCancel", JBool true)]
      (after [CancelPendingRequests None; CancelPendingRequests (Some "SearchForReports")])
    = Some controller /\
    aborted (after [CancelPendingRequests None; CancelPendingRequests (Some "SearchForReports")])
      controller = false /\
    (abortControllerMap
       (after [CancelPendingRequests None; CancelPendingRequests (Some "SearchForReports")])
       !! "OpenApp" = Some controller
     \/ (abortControllerMap
           (after [CancelPendingRequests None; CancelPendingRequests (Some "SearchForReports")])
           !! "OpenApp" = None /\
         abortControllerMap
           (after [CancelPendingRequests None; CancelPendingRequests (Some "SearchForReports")])
           !! ABORT_COMMANDS_All = Some controller)).
Proof.
  apply (xhr_signal_is_never_aborted_at_start
           [CancelPendingRequests None; CancelPendingRequests (Some "SearchForReports")]
           "OpenApp" [("canCancel", JBool true)]).
  reflexivity.
Defined.

(** What one call of [cancelPendingRequests] does to the controllers. *)
Lemma cancelPendingRequests_run (command : option string) (st : State) (c : nat) :
  well_formed st ->
  (c < length (controllers st))%nat ->
  aborted (cancelPendingRequests command st) c
  = aborted st c
    || bool_decide (abortControllerMap st !! default ABORT_COMMANDS_All command = Some c).
Proof.
  intros Hwf Hlt. unfold cancelPendingRequests, aborted.
  set (cmd := default ABORT_COMMANDS_All command).
  destruct (abortControllerMap st !! cmd) as [c0|] eqn:Hc0; simpl.
  - rewrite lookup_app_l by (by rewrite length_insert).
    destruct (decide (c0 = c)) as [->|Hne].
    + rewrite list_lookup_insert_eq by done. simpl.
      rewrite bool_decide_true by done. by rewrite orb_true_r.
    + rewrite list_lookup_insert_ne by done.
      rewrite bool_decide_false by congruence. by rewrite orb_false_r.
  - rewrite lookup_app_l by done. by rewrite orb_false_r.
Qed.

(** X17. Cancelling a command aborts the requests that were given the signal of
    that command's controller, and the requests that come later are given
    another controller's signal, one that is not aborted. *)
Theorem cancelPendingRequests_aborts_and_renews
    (actions : list Action) (command : string) (data : list (string * JsonValue))
    (controller : nat) :
  abortControllerMap (after actions) !! command = Some controller ->
  truthy_opt (assoc "canCancel" data) = true ->
  let st' := cancelPendingRequests (Some command) (after actions) in
  xhr_abortSignalController command data (after actions) = Some controller /\
  aborted st' controller = true /\
  exists controller',
    xhr_abortSignalController command data st' = Some controller' /\
    controller' <> controller /\
    aborted st' controller' = false.
Proof.
  intros Hc Hcan st'. pose proof (well_formed_after actions) as Hwf.
  pose proof (well_formed_bound _ _ _ Hwf Hc) as Hlt.
  split; [|split].
  - unfold xhr_abortSignalController. by rewrite Hcan, Hc.
  - subst st'. rewrite cancelPendingRequests_run by done. simpl.
    rewrite bool_decide_true by done. by rewrite orb_true_r.
  - pose proof (well_formed_cancelPendingRequests (Some command) _ Hwf)
      as (_ & _ & Hlive' & _).
    assert (Hnew : abortControllerMap st' !! command = Some (length (controllers (after actions)))).
    { subst st'. unfold cancelPendingRequests. simpl. rewrite Hc. simpl.
      rewrite length_insert. by rewrite lookup_insert_eq. }
    exists (length (controllers (after actions))). split; [|split].
    + unfold xhr_abortSignalController. by rewrite Hcan, Hnew.
    + lia.
    + apply aborted_live. eauto.
Qed.

Lemma cancelPendingRequests_aborts_and_renews_witness :
  let st' := cancelPendingRequests (Some "SearchForReports") (after []) in
  xhr_abortSignalController "SearchForReports" [("canCancel", JBool true)] (after []) = Some 1%nat /\
  aborted st' 1 = true /\
  exists controller',
    xhr_abortSignalController "SearchForReports" [("canCancel", JBool true)] st'
    = Some controller' /\
    controller' <> 1%nat /\
    aborted st' controller' = false.
Proof.
  apply (cancelPendingRequests_aborts_and_renews [] "SearchForReports"
           [("canCancel", JBool true)] 1); reflexivity.
Defined.

(** X18. Cancelling one command leaves the requests of every other command that
    has a controller of its own alone.  In particular [cancelPendingRequests()],
    which cancels "All", does not abort a request of SearchForReports. *)
Theorem cancelPendingRequests_spares_other_commands
    (actions : list Action) (command : string) (data : list (string * JsonValue))
    (controller : nat) (cancelled : option string) :
  xhr_abortSignalController command data (after actions) = Some controller ->
  is_Some (abortControllerMap (after actions) !! command) ->
  default ABORT_COMMANDS_All cancelled <> command ->
  aborted (cancelPendingRequests cancelled (after actions)) controller = false.
Proof.
  intros Hsel [c Hc] Hne. pose proof (well_formed_after actions) as Hwf.
  pose proof Hwf as (_ & _ & Hlive & Hinj).
  unfold xhr_abortSignalController in Hsel. rewrite Hc in Hsel.
  destruct (truthy_opt (assoc "canCancel" data)); [|done].
  injection Hsel as ->.
  rewrite cancelPendingRequests_run by eauto using well_formed_bound.
  rewrite (aborted_live _ _ (Hlive _ _ Hc)). simpl.
  apply bool_decide_false. intros Hc'. apply Hne. eauto.
Qed.

Lemma cancelPendingRequests_spares_other_commands_witness :
  xhr_abortSignalController "SearchForReports" [("canCancel", JBool true)] (after [])
  = Some 1%nat /\
  aborted (cancelPendingRequests None (after [])) 1 = false.
Proof.
  split; [reflexivity|].
  apply (cancelPendingRequests_spares_other_commands [] "SearchForReports"
           [("canCancel", JBool true)] 1 None).
  - reflexivity.
  - eexists. reflexivity.
  - discriminate.
Defined.

Lemma forced_to_fail_kept (updates : list (option JsonValue)) (st : State) :
  Forall (fun network => truthy_opt network = false) updates ->
  forced_to_fail (foldl (fun st network => onNetworkChanged network st) st updates)
  = forced_to_fail st.
Proof.
  intros Hupdates. revert st.
  induction Hupdates as [|network updates Hn _ IH]; intros st; simpl; [done|].
  rewrite IH. unfold onNetworkChanged. by rewrite Hn.
Qed.

(** X19. Once a network value switches a failure mode on, every response is
    turned into the "failed to fetch" error, successful ones included, until
    another network value arrives: empty values in between change nothing. *)
Theorem forced_failure_fails_every_response
    (c : Const) (st : State) (network : JsonValue) (updates : list (option JsonValue))
    (response : Response) :
  truthy network = true ->
  truthy_opt (get_prop network "shouldFailAllRequests") = true
  \/ truthy_opt (get_prop network "shouldForceOffline") = true ->
  Forall (fun network => truthy_opt network = false) updates ->
  processHTTPRequest_checkResponse c
    (foldl (fun st network => onNetworkChanged network st)
       (onNetworkChanged (Some network) st) updates)
    response
  = inl (HttpsError (ERROR_FAILED_TO_FETCH c) None None).
Proof.
  intros Htruthy Hswitch Hupdates.
  pose proof (forced_to_fail_kept updates (onNetworkChanged (Some network) st) Hupdates)
    as Hkept.
  unfold processHTTPRequest_checkResponse. unfold forced_to_fail in Hkept.
  rewrite Hkept. unfold onNetworkChanged. simpl. rewrite Htruthy. simpl.
  by destruct Hswitch as [-> | ->]; rewrite ?orb_true_r.
Qed.

Lemma forced_failure_fails_every_response_witness :
  processHTTPRequest_checkResponse example_const
    (foldl (fun st network => onNetworkChanged network st)
       (onNetworkChanged (Some (JObj [("shouldForceOffline", JBool true)])) initial)
       [None; Some JNull])
    (mkResponse true 200 "OK")
  = inl (HttpsError "Failed to fetch" None None).
Proof.
  apply (forced_failure_fails_every_response example_const initial
           (JObj [("shouldForceOffline", JBool true)]) [None; Some JNull]
           (mkResponse true 200 "OK")).
  - reflexivity.
  - right. reflexivity.
  - repeat constructor.
Defined.

(** X20. With the failure modes off, the body of a response is read exactly when
    the response is ok; every other response becomes an error that carries
    the response's status as a string. *)
Theorem checkResponse_reads_body_iff_ok
    (c : Const) (st : State) (response : Response) :
  forced_to_fail st = false ->
  (ok response = true /\
   processHTTPRequest_checkResponse c st response = inr response)
  \/ (ok response = false /\
      exists message title,
        processHTTPRequest_checkResponse c st response
        = inl (HttpsError message (Some (Number_toString (status response))) title)).
Proof.
  unfold forced_to_fail, processHTTPRequest_checkResponse. intros ->.
  destruct (ok response); simpl; [by left|right].
  split; [done|].
  repeat case_match; eauto.
Qed.

Lemma checkResponse_reads_body_iff_ok_witness :
  (ok (mkResponse false 502 "Bad Gateway") = true /\
   processHTTPRequest_checkResponse example_const initial (mkResponse false 502 "Bad Gateway")
   = inr (mkResponse false 502 "Bad Gateway"))
  \/ (ok (mkResponse false 502 "Bad Gateway") = false /\
      exists message title,
        processHTTPRequest_checkResponse example_const initial
          (mkResponse false 502 "Bad Gateway")
        = inl (HttpsError message
                 (Some (Number_toString (status (mkResponse false 502 "Bad Gateway")))) title)).
Proof.
  apply (checkResponse_reads_body_iff_ok example_const initial
           (mkResponse false 502 "Bad Gateway")).
  reflexivity.
Defined.

Lemma checkJson_nonnull (c : Const) (response : JsonValue) :
  response <> JNull ->
  processHTTPRequest_checkJson c response
  = if is_duplicate_record c response then
      ([], inl (HttpsError (ERROR_DUPLICATE_RECORD c)
                  (Some (Number_toString (JSON_CODE_BAD_REQUEST c)))
                  (Some (ERROR_TITLE_DUPLICATE_RECORD c))))
    else if is_socket_error c response then
      ([], inl (HttpsError (ERROR_EXPENSIFY_SERVICE_INTERRUPTED c)
                  (Some (Number_toString (JSON_CODE_EXP_ERROR c)))
                  (Some (ERROR_TITLE_SOCKET c))))
    else
      match alertTooManyAuthWrites response with
      | inl e => ([], inl e)
      | inr effects =>
          if strict_eq_num (get_prop response "jsonCode") (JSON_CODE_UPDATE_REQUIRED c)
          then (effects ++ [AlertUser], inr response)
          else (effects, inr response)
      end.
Proof. by destruct response. Qed.

Lemma alertTooManyAuthWrites_cases (response : JsonValue) :
  (exists msg, alertTooManyAuthWrites response = inl (TypeError msg))
  \/ (exists effects, alertTooManyAuthWrites response = inr effects /\ AlertUser ∉ effects).
Proof.
  unfold alertTooManyAuthWrites.
  repeat case_match; eauto; right; eexists; (split; [reflexivity|]);
    rewrite ?elem_of_cons, elem_of_nil; intuition discriminate.
Qed.

(** X21. What the callback on the parsed body can end with: it throws an
    [HttpsError] exactly for a duplicate record or a socket error, whenever
    it throws it has raised no alert, whenever it returns it returns the body
    it was given, and it calls [alertUser] exactly when it returns a body
    whose [jsonCode] is UPDATE_REQUIRED. *)
Theorem checkJson_outcomes (c : Const) (response : JsonValue) :
  let r := processHTTPRequest_checkJson c response in
  (forall message status title,
      snd r = inl (HttpsError message status title) <->
      response <> JNull /\
      (is_duplicate_record c response = true /\
       message = ERROR_DUPLICATE_RECORD c /\
       status = Some (Number_toString (JSON_CODE_BAD_REQUEST c)) /\
       title = Some (ERROR_TITLE_DUPLICATE_RECORD c)
       \/ is_duplicate_record c response = false /\
          is_socket_error c response = true /\
          message = ERROR_EXPENSIFY_SERVICE_INTERRUPTED c /\
          status = Some (Number_toString (JSON_CODE_EXP_ERROR c)) /\
          title = Some (ERROR_TITLE_SOCKET c))) /\
  (forall e, snd r = inl e -> fst r = []) /\
  (forall body, snd r = inr body -> body = response) /\
  (AlertUser ∈ fst r <->
   (exists body, snd r = inr body) /\
   strict_eq_num (get_prop response "jsonCode") (JSON_CODE_UPDATE_REQUIRED c) = true).
Proof.
  intros r. subst r.
  destruct (match response with JNull => true | _ => false end) eqn:Hnull.
  { destruct response; try discriminate. simpl.
    split; [|split; [|split]]; try done.
    - intros. split; [done|]. by intros [? _].
    - split; [by intros ?%elem_of_nil|]. by intros [[? ?] _]. }
  assert (Hnn : response <> JNull) by (by intros ->).
  rewrite (checkJson_nonnull c response Hnn).
  destruct (is_duplicate_record c response) eqn:Hdup; simpl.
  { split; [|split; [|split]]; try done.
    - intros message status' title. split.
      + intros [= <- <- <-]. split; [done|]. by left.
      + intros [_ [(_ & -> & -> & ->)|(? & _)]]; [done|discriminate].
    - split; [by intros ?%elem_of_nil|]. by intros [[? ?] _]. }
  destruct (is_socket_error c response) eqn:Hsock; simpl.
  { split; [|split; [|split]]; try done.
    - intros message status' title. split.
      + intros [= <- <- <-]. split; [done|]. by right.
      + intros [_ [(? & _)|(_ & _ & -> & -> & ->)]]; [discriminate|done].
    - split; [by intros ?%elem_of_nil|]. by intros [[? ?] _]. }
  destruct (alertTooManyAuthWrites_cases response)
    as [[msg ->]|(effects & -> & Hno)]; simpl.
  { split; [|split; [|split]]; try done.
    - intros message status' title. split; [done|].
      intros [_ [(? & _)|(_ & ? & _)]]; discriminate.
    - split; [by intros ?%elem_of_nil|]. by intros [[? ?] _]. }
  destruct (strict_eq_num (get_prop response "jsonCode") (JSON_CODE_UPDATE_REQUIRED c));
    simpl.
  - split; [|split; [|split]]; try done.
    + intros message status' title. split; [done|].
      intros [_ [(? & _)|(_ & ? & _)]]; discriminate.
    + by intros body [= <-].
    + split; [eauto|]. intros _. apply elem_of_app. right. constructor.
  - split; [|split; [|split]]; try done.
    + intros message status' title. split; [done|].
      intros [_ [(? & _)|(_ & ? & _)]]; discriminate.
    + by intros body [= <-].
    + split; [done|]. by intros [_ ?].
Qed.
End HttpUtilsProofs.
